(** * The macro pre-assembler: a shallow embedding and its properties

    The repository holds two drafts of the pre-assembly pass:

    - [src/pre_assembler.c]: two passes over the [.as] file, macro bodies in
      one growing byte buffer ([Module PreAssembler]);
    - the [pre_assembler copy.c] part of [src/main.c]: one pass, macro bodies
      as linked lists of lines, output opened lazily
      ([Module PreAssemblerCopy]).

    Both are embedded below, on top of a small model of the C library calls
    they use ([Module CLib]) and of [src/utils.c] and [src/error_handler.c].
    C strings are [string]s without the terminating NUL; a buffer filled by
    [fgets] is read through [c_str], its prefix up to the first NUL byte. *)

From Stdlib Require Import String Ascii List Bool Arith ZArith Lia.
Import ListNotations.
Open Scope string_scope.
Open Scope bool_scope.
Open Scope nat_scope.

(* ================================================================== *)
(** ** C library *)

Module CLib.

Definition NUL : ascii := "000"%char.
Definition HT : ascii := "009"%char.
Definition LF : ascii := "010"%char.
Definition VT : ascii := "011"%char.
Definition FF : ascii := "012"%char.
Definition CR : ascii := "013"%char.
Definition SP : ascii := " "%char.

(** <ctype.h> in the "C" locale, on [(unsigned char)c]. *)
Definition isspace (c : ascii) : bool :=
  let n := nat_of_ascii c in (n =? 32) || ((9 <=? n) && (n <=? 13)).

Definition isupper (c : ascii) : bool :=
  let n := nat_of_ascii c in (65 <=? n) && (n <=? 90).

Definition islower (c : ascii) : bool :=
  let n := nat_of_ascii c in (97 <=? n) && (n <=? 122).

Definition isdigit (c : ascii) : bool :=
  let n := nat_of_ascii c in (48 <=? n) && (n <=? 57).

Definition isalpha (c : ascii) : bool := isupper c || islower c.
Definition isalnum (c : ascii) : bool := isalpha c || isdigit c.

(** The C string held in a byte buffer: everything before the first NUL. *)
Fixpoint c_str (buf : string) : string :=
  match buf with
  | EmptyString => EmptyString
  | String c rest => if Ascii.eqb c NUL then EmptyString else String c (c_str rest)
  end.

Definition strlen (s : string) : nat := String.length s.

(** [strcmp(a, b) == 0]. *)
Definition streq (a b : string) : bool := String.eqb a b.

(** The first [n] characters: what [strncpy(dst, s, n); dst[n] = 0] leaves
    in [dst]. *)
Fixpoint strncpy (s : string) (n : nat) : string :=
  match n, s with
  | 0, _ => EmptyString
  | _, EmptyString => EmptyString
  | S n', String c rest => String c (strncpy rest n')
  end.

(** [s + n], for [n <= strlen(s)]. *)
Fixpoint advance (s : string) (n : nat) : string :=
  match n, s with
  | 0, _ => s
  | _, EmptyString => EmptyString
  | S n', String _ rest => advance rest n'
  end.

(** [strncmp(s, lit, strlen(lit)) == 0]. *)
Definition strncmp_eq (s lit : string) : bool :=
  String.eqb (strncpy s (strlen lit)) lit.

(** [s[i]], the terminating NUL included. *)
Definition char_at (s : string) (i : nat) : ascii :=
  match String.get i s with
  | Some c => c
  | None => NUL
  end.

(** [*s]. *)
Definition deref (s : string) : ascii := char_at s 0.

(** [strchr(s, c)]: the suffix of [s] that starts at the first [c]. *)
Fixpoint strchr (s : string) (c : ascii) : option string :=
  match s with
  | EmptyString => None
  | String d rest => if Ascii.eqb d c then Some s else strchr rest c
  end.

(** Length of the part of [s] before the first [c] (for pointer
    differences against a [strchr] result). *)
Fixpoint span_to (s : string) (c : ascii) : nat :=
  match s with
  | EmptyString => 0
  | String d rest => if Ascii.eqb d c then 0 else S (span_to rest c)
  end.

(** [strstr(hay, needle)]: the suffix of [hay] at the first occurrence. *)
Fixpoint strstr (hay needle : string) : option string :=
  if strncmp_eq hay needle then Some hay
  else match hay with
       | EmptyString => None
       | String _ rest => strstr rest needle
       end.

Definition is_delim (delims : string) (c : ascii) : bool :=
  match strchr delims c with
  | Some _ => true
  | None => false
  end.

Fixpoint skip_delims (delims s : string) : string :=
  match s with
  | EmptyString => EmptyString
  | String c rest => if is_delim delims c then skip_delims delims rest else s
  end.

(** Splits at the first delimiter: the token and what follows the
    delimiter that ended it. *)
Fixpoint token_split (delims s : string) : string * string :=
  match s with
  | EmptyString => (EmptyString, EmptyString)
  | String c rest =>
      if is_delim delims c then (EmptyString, rest)
      else let (tok, after) := token_split delims rest in (String c tok, after)
  end.

(** One [strtok] call on the text that is left: the token and the text the
    next [strtok(NULL, delims)] call continues from; [None] for NULL. *)
Definition strtok (s delims : string) : option (string * string) :=
  match skip_delims delims s with
  | EmptyString => None
  | rest => Some (token_split delims rest)
  end.

(** [fgets(buf, size, stream)]: at most [size - 1] bytes, stopping after a
    newline. The pair is the buffer and the rest of the stream. *)
Fixpoint fgets_bytes (room : nat) (stream : string) : string * string :=
  match room, stream with
  | 0, _ => (EmptyString, stream)
  | _, EmptyString => (EmptyString, EmptyString)
  | S room', String c rest =>
      if Ascii.eqb c LF then (String c EmptyString, rest)
      else let (buf, rest') := fgets_bytes room' rest in (String c buf, rest')
  end.

Definition fgets (size : nat) (stream : string) : option (string * string) :=
  match stream with
  | EmptyString => None
  | _ => Some (fgets_bytes (size - 1) stream)
  end.

(** The buffers that successive [fgets] calls hand to the body of
    [while (fgets(buf, size, f) != NULL)], in order. Every successful call
    consumes a byte, so [String.length stream] rounds reach end of file. *)
Fixpoint fgets_loop (fuel size : nat) (stream : string) : list string :=
  match fuel with
  | 0 => []
  | S fuel' =>
      match fgets size stream with
      | None => []
      | Some (buf, rest) => buf :: fgets_loop fuel' size rest
      end
  end.

Definition read_lines (size : nat) (stream : string) : list string :=
  fgets_loop (String.length stream) size stream.

(** What [fputs] of each string in turn appends to a file. *)
Definition join (l : list string) : string := fold_right append EmptyString l.

End CLib.

(* ================================================================== *)
(** ** src/definitions.h *)

Module Definitions.

Definition MAX_LINE_LENGTH : nat := 80.
Definition MAX_LABEL_LENGTH : nat := 30.
Definition AS_EXTENSION : string := ".as".
Definition AM_EXTENSION : string := ".am".

End Definitions.

(* ================================================================== *)
(** ** src/error_handler.h, src/error_handler.c *)

Module ErrorHandler.

Inductive ErrorType : Set :=
  | ERROR_NONE
  | ERROR_FILE_OPEN_FAILED
  | ERROR_LINE_TOO_LONG
  | ERROR_EMPTY_OR_COMMENT_FILE
  | ERROR_MACRO_NAME_RESERVED_KEYWORD
  | ERROR_MACRO_NAME_INVALID_FORMAT
  | ERROR_MACRO_DEFINITION_SYNTAX
  | ERROR_NESTED_MACRO_DEFINITION
  | ERROR_UNEXPECTED_MACRO_END
  | ERROR_UNCLOSED_MACRO_DEFINITION
  | ERROR_LABEL_REDEFINITION
  | ERROR_LABEL_RESERVED_KEYWORD
  | ERROR_LABEL_INVALID_FORMAT
  | ERROR_ENTRY_EXTERN_CONFLICT
  | ERROR_UNDEFINED_LABEL
  | ERROR_ENTRY_UNDEFINED_SYMBOL
  | ERROR_UNKNOWN_OPERATION
  | ERROR_ILLEGAL_OPERAND_COUNT
  | ERROR_INVALID_ADDRESSING_METHOD
  | ERROR_INVALID_IMMEDIATE_VALUE
  | ERROR_MISSING_QUOTES_STRING
  | ERROR_DATA_DIRECTIVE_SYNTAX
  | ERROR_MATRIX_INDEX_SYNTAX
  | ERROR_REGISTER_OUT_OF_RANGE
  | ERROR_MEMORY_OVERFLOW
  | ERROR_GENERIC_SYNTAX_ERROR
  | ERROR_INTERNAL_ERROR.

(** One line written to stderr by [report_error]. *)
Record diagnostic : Set := Diag {
  d_file : string;
  d_line : nat;
  d_kind : ErrorType
}.

(** The module's static flag together with what it has printed. *)
Record sink : Set := {
  g_errors_occurred : bool;
  stderr : list diagnostic
}.

Definition quiet : sink := {| g_errors_occurred := false; stderr := [] |}.

(** Both branches of [report_error] print one line and set the flag; every
    member of the enumeration is in the range of the first. *)
Definition report_error (file_name : string) (line_number : nat)
    (error_type : ErrorType) (k : sink) : sink :=
  {| g_errors_occurred := true;
     stderr := (stderr k ++ [Diag file_name line_number error_type])%list |}.

Definition has_errors (k : sink) : bool := g_errors_occurred k.

Definition reset_error_flag (k : sink) : sink :=
  {| g_errors_occurred := false; stderr := stderr k |}.

(** The kinds reported, in order. *)
Definition kinds (k : sink) : list ErrorType := map d_kind (stderr k).

End ErrorHandler.

(* ================================================================== *)
(** ** src/utils.c *)

Module Utils.
Import CLib Definitions.

Definition opcode_names : list string :=
  ["mov"; "cmp"; "add"; "sub"; "not"; "clr"; "lea"; "inc";
   "dec"; "jmp"; "bne"; "red"; "prn"; "jsr"; "rts"; "stop"].

Definition directive_names : list string :=
  [".data"; ".string"; ".mat"; ".entry"; ".extern"].

Definition register_names : list string :=
  ["r0"; "r1"; "r2"; "r3"; "r4"; "r5"; "r6"; "r7"].

Definition is_alpha (c : ascii) : bool := isalpha c.

Definition is_alphanumeric (c : ascii) : bool :=
  isalnum c || Ascii.eqb c "_"%char.

Definition is_whitespace (c : ascii) : bool := isspace c.

Fixpoint skip_whitespace (str : string) : string :=
  match str with
  | EmptyString => EmptyString
  | String c rest => if is_whitespace c then skip_whitespace rest else str
  end.

(** The whitespace that [skip_whitespace] steps over. *)
Fixpoint leading_whitespace (str : string) : string :=
  match str with
  | EmptyString => EmptyString
  | String c rest =>
      if is_whitespace c then String c (leading_whitespace rest)
      else EmptyString
  end.

(** [s] without its trailing whitespace. *)
Fixpoint drop_trailing_whitespace (s : string) : string :=
  match s with
  | EmptyString => EmptyString
  | String c rest =>
      match drop_trailing_whitespace rest with
      | EmptyString => if is_whitespace c then EmptyString else String c EmptyString
      | kept => String c kept
      end
  end.

(** The backward loop of [trim_whitespace]: [end] walks down from the last
    character while [end > str], so the first character always stays. *)
Definition cut_trailing (str : string) : string :=
  match str with
  | EmptyString => EmptyString
  | String c rest => String c (drop_trailing_whitespace rest)
  end.

(** [trim_whitespace(str)] works in place. The first component is the
    buffer [str] afterwards (leading whitespace is still there, the NUL
    written at [end + 1] cuts the tail), the second the returned pointer's
    string. A buffer of whitespace only is left as it is. *)
Definition trim_whitespace_buf (str : string) : string * string :=
  match str with
  | EmptyString => (str, str)
  | _ =>
      match skip_whitespace str with
      | EmptyString => (str, EmptyString)
      | core => (leading_whitespace str ++ cut_trailing core, cut_trailing core)
      end
  end.

Definition trim_whitespace (str : string) : string := snd (trim_whitespace_buf str).
Definition trim_whitespace_in_place (str : string) : string := fst (trim_whitespace_buf str).

Definition is_empty_or_comment_line (line : string) : bool :=
  let trimmed_line := skip_whitespace line in
  if Ascii.eqb (deref trimmed_line) NUL then true
  else if Ascii.eqb (deref trimmed_line) ";"%char then true
  else false.

Definition is_reserved_keyword (str : string) : bool :=
  if existsb (streq str) opcode_names then true
  else if existsb (streq str) directive_names then true
  else if existsb (streq str) register_names then true
  else false.

(** [for (i = 1; label[i] != 0; i++) if (!is_alphanumeric(label[i])) ...],
    from any starting index. *)
Fixpoint all_alphanumeric (s : string) : bool :=
  match s with
  | EmptyString => true
  | String c rest => if is_alphanumeric c then all_alphanumeric rest else false
  end.

Definition is_legal_label (label : string) : bool :=
  match label with
  | EmptyString => false
  | String c rest =>
      if negb (is_alpha c) then false
      else if negb (all_alphanumeric rest) then false
      else if MAX_LABEL_LENGTH <? strlen label then false
      else if is_reserved_keyword label then false
      else true
  end.

End Utils.

(* ================================================================== *)
(** ** The files the pass reads and writes *)

Module Files.

(** What [process_pre_assembly_for_file] can see of the file system: the
    [.as] file ([None]: it cannot be opened), the [.am] file ([None]: there
    is none), and whether [fopen(.., "w")] on the [.am] path succeeds. The
    file name is taken to fit the buffers in which the two paths are
    built. *)
Record env : Set := {
  as_on_disk : option string;
  am_on_disk : option string;
  am_writable : bool
}.

(** What a call leaves: its return value, what it printed on stderr, and
    the [.am] file afterwards. *)
Record outcome : Set := {
  result : bool;
  errors : list ErrorHandler.diagnostic;
  am_after : option string
}.

(** How a call ends: it returns, or it reaches a statement for which the C
    standard defines no behaviour; [printed] is what stderr holds by
    then. *)
Inductive run (A : Type) : Type :=
  | Returns (a : A)
  | Undefined (printed : list ErrorHandler.diagnostic).

Arguments Returns {A} a.
Arguments Undefined {A} printed.

(** What a call has printed while its behaviour is defined. *)
Definition reported (r : run outcome) : list ErrorHandler.diagnostic :=
  match r with
  | Returns o => errors o
  | Undefined printed => printed
  end.

End Files.

(* ================================================================== *)
(** ** src/pre_assembler.c *)

Module PreAssembler.
Import CLib Definitions ErrorHandler Utils Files.

Record Macro : Set := {
  name : string;
  body : string;
  body_length : nat
}.

(** [g_macros[0 .. g_macro_count-1]]. The field [name] has
    [MAX_LABEL_LENGTH] bytes and [add_macro] writes the terminator at
    [name[MAX_LABEL_LENGTH]], the byte after it, which is padding of the
    struct before the pointer [body]; the name is read back as the string
    that ends there. *)
Definition add_macro (g_macros : list Macro) (name body : string)
    (body_length : nat) : list Macro :=
  (g_macros ++ [ {| name := strncpy name MAX_LABEL_LENGTH;
                    body := strncpy body body_length;
                    body_length := body_length |} ])%list.

Fixpoint find_macro (g_macros : list Macro) (name' : string) : option Macro :=
  match g_macros with
  | [] => None
  | m :: rest => if streq (name m) name' then Some m else find_macro rest name'
  end.

Fixpoint while_alphanumeric (name : string) : bool :=
  match name with
  | EmptyString => true
  | String c rest => if negb (is_alphanumeric c) then false else while_alphanumeric rest
  end.

Definition is_valid_macro_name (name : string) : bool :=
  match name with
  | EmptyString => false
  | String c0 _ =>
      if MAX_LABEL_LENGTH <? strlen name then false
      else if Ascii.eqb c0 "_"%char then false
      else if negb (is_alpha c0) then false
      else if negb (while_alphanumeric name) then false
      else if is_reserved_keyword name then false
      else true
  end.

(** The token loop [while (token[0] != 0 && !is_whitespace(token[0]))
    token++]: the part stepped over and where [token] stops. *)
Fixpoint scan_token (s : string) : string * string :=
  match s with
  | EmptyString => (EmptyString, EmptyString)
  | String c rest =>
      if is_whitespace c then (EmptyString, s)
      else let (tok, stop) := scan_token rest in (String c tok, stop)
  end.

(** [Some name]: TRUE, with [name] copied to [macro_name]; [None]: FALSE,
    [macro_name] not written. *)
Definition extract_macro_name (line : string) (buffer_size : nat) : option string :=
  let line_copy := strncpy line MAX_LINE_LENGTH in
  let trimmed_line := trim_whitespace line_copy in
  if negb (strncmp_eq trimmed_line "mcro") then None
  else
    let trimmed_line := skip_whitespace (advance trimmed_line 4) in
    let (extracted_name, token) := scan_token trimmed_line in
    if strlen extracted_name =? 0 then None
    else if MAX_LABEL_LENGTH + 1 <=? strlen extracted_name then None
    else
      let token := skip_whitespace token in
      if negb (Ascii.eqb (deref token) NUL) && negb (Ascii.eqb (deref token) ";"%char)
      then None
      else if buffer_size <=? strlen extracted_name then None
      else Some extracted_name.

(** The macro's stored name, or [None] for NULL. *)
Definition is_macro_call (g_macros : list Macro) (line : string) : option string :=
  let line_copy := strncpy line MAX_LINE_LENGTH in
  let trimmed_line := trim_whitespace line_copy in
  let trimmed_line :=
    match strchr trimmed_line ":"%char with
    | Some at_colon => skip_whitespace (advance at_colon 1)
    | None => trimmed_line
    end in
  let (macro_name, _) := scan_token trimmed_line in
  if strlen macro_name =? 0 then None
  else if MAX_LABEL_LENGTH <? strlen macro_name then None
  else match find_macro g_macros macro_name with
       | Some macro => Some (name macro)
       | None => None
       end.

(** Pointer arguments are [option]s, [None] for NULL. The second component
    of the result is the name buffer after the call. *)
Definition is_macro_definition_start (line macro_name_buffer : option string)
    (buffer_size : nat) : bool * option string :=
  match line, macro_name_buffer with
  | Some line', Some _ =>
      match extract_macro_name line' buffer_size with
      | Some name' => (true, Some name')
      | None => (false, macro_name_buffer)
      end
  | _, _ => (false, macro_name_buffer)
  end.

Definition is_macro_definition_end (line : option string) : bool :=
  match line with
  | None => false
  | Some line' =>
      let line_copy := strncpy line' MAX_LINE_LENGTH in
      let trimmed_line := trim_whitespace line_copy in
      if strncmp_eq trimmed_line "mcroend" then
        let trimmed_line := skip_whitespace (advance trimmed_line 7) in
        Ascii.eqb (deref trimmed_line) NUL || Ascii.eqb (deref trimmed_line) ";"%char
      else false
  end.

(** The locals of [process_pre_assembly_for_file] that the loops change,
    with the two module-level tables they reach. [macro_body] is the first
    [macro_body_size] bytes of the buffer of that name. *)
Record locals : Set := {
  line_number : nat;
  in_macro_definition : bool;
  current_macro_name : string;
  macro_body : string;
  has_errors_in_file : bool;
  g_macros : list Macro;
  diag : sink;
  output_file : option string
}.

Definition macro_body_size (l : locals) : nat := strlen (macro_body l).

Definition sizeof_current_macro_name : nat := MAX_LABEL_LENGTH + 1.
Definition sizeof_line : nat := MAX_LINE_LENGTH + 2.

(** [char input_filename[256]] and [char output_filename[256]]. *)
Definition sizeof_filename : nat := 256.

(** The name buffer as [is_macro_definition_start] leaves it. *)
Definition name_after (buffer : option string) (l : locals) : string :=
  match buffer with
  | Some n => n
  | None => current_macro_name l
  end.

(** Body of the first [while (fgets ...)] loop; [line] is the C string in
    the buffer. *)
Definition first_pass_line (file_name : string) (l : locals) (line : string) : locals :=
  let ln := S (line_number l) in
  let fail kind name' :=
    {| line_number := ln;
       in_macro_definition := in_macro_definition l;
       current_macro_name := name';
       macro_body := macro_body l;
       has_errors_in_file := true;
       g_macros := g_macros l;
       diag := report_error file_name ln kind (diag l);
       output_file := output_file l |} in
  if MAX_LINE_LENGTH + 1 <? strlen line then
    fail ERROR_LINE_TOO_LONG (current_macro_name l)
  else
    let (started, buffer) :=
      is_macro_definition_start (Some line) (Some (current_macro_name l))
        sizeof_current_macro_name in
    let name' := name_after buffer l in
    if started then
      if negb (is_valid_macro_name name') then
        if is_reserved_keyword name' then fail ERROR_MACRO_NAME_RESERVED_KEYWORD name'
        else fail ERROR_MACRO_NAME_INVALID_FORMAT name'
      else
        match find_macro (g_macros l) name' with
        | Some _ => fail ERROR_LABEL_REDEFINITION name'
        | None =>
            {| line_number := ln;
               in_macro_definition := true;
               current_macro_name := name';
               macro_body := EmptyString;
               has_errors_in_file := has_errors_in_file l;
               g_macros := g_macros l;
               diag := diag l;
               output_file := output_file l |}
        end
    else if is_macro_definition_end (Some line) then
      {| line_number := ln;
         in_macro_definition := false;
         current_macro_name := name';
         macro_body := EmptyString;
         has_errors_in_file := has_errors_in_file l;
         g_macros :=
           if 0 <? macro_body_size l
           then add_macro (g_macros l) name' (macro_body l) (macro_body_size l)
           else g_macros l;
         diag := diag l;
         output_file := output_file l |}
    else
      {| line_number := ln;
         in_macro_definition := in_macro_definition l;
         current_macro_name := name';
         macro_body :=
           if in_macro_definition l then macro_body l ++ line else macro_body l;
         has_errors_in_file := has_errors_in_file l;
         g_macros := g_macros l;
         diag := diag l;
         output_file := output_file l |}.

(** What the second loop writes for a line outside any definition. *)
Definition expand_line (g : list Macro) (line : string) : string :=
  match is_macro_call g line with
  | Some macro_name =>
      match find_macro g macro_name with
      | Some called_macro =>
          match strchr line ":"%char with
          | Some _ =>
              let label_len := span_to line ":"%char + 1 in
              strncpy line label_len ++ body called_macro
          | None => body called_macro
          end
      | None => EmptyString
      end
  | None => line
  end.

(** Body of the second [while (fgets ...)] loop. *)
Definition second_pass_line (l : locals) (line : string) : locals :=
  let ln := S (line_number l) in
  let (started, buffer) :=
    is_macro_definition_start (Some line) (Some (current_macro_name l))
      sizeof_current_macro_name in
  let name' := name_after buffer l in
  let next in_def out :=
    {| line_number := ln;
       in_macro_definition := in_def;
       current_macro_name := name';
       macro_body := macro_body l;
       has_errors_in_file := has_errors_in_file l;
       g_macros := g_macros l;
       diag := diag l;
       output_file := out |} in
  if started then next true (output_file l)
  else if is_macro_definition_end (Some line) then next false (output_file l)
  else if in_macro_definition l then next true (output_file l)
  else
    match output_file l with
    | Some written => next false (Some (written ++ expand_line (g_macros l) line))
    | None => next false None
    end.

(** The C strings that the loop body sees, one per [fgets] call. *)
Definition lines_of (text : string) : list string :=
  map c_str (read_lines sizeof_line text).

Definition entry : locals :=
  {| line_number := 0;
     in_macro_definition := false;
     current_macro_name := EmptyString;
     macro_body := EmptyString;
     has_errors_in_file := false;
     g_macros := [];
     diag := reset_error_flag quiet;
     output_file := None |}.

Definition first_pass (file_name text : string) : locals :=
  fold_left (first_pass_line file_name) (lines_of text) entry.

(** [line_number = 0; in_macro_definition = FALSE;] with the output file
    as given. *)
Definition rewind (l : locals) (out : option string) : locals :=
  {| line_number := 0;
     in_macro_definition := false;
     current_macro_name := current_macro_name l;
     macro_body := EmptyString;
     has_errors_in_file := has_errors_in_file l;
     g_macros := g_macros l;
     diag := diag l;
     output_file := out |}.

Definition second_pass (text : string) (l : locals) (out : option string) : locals :=
  fold_left second_pass_line (lines_of text) (rewind l out).

(** When the first loop has raised no error and [fopen(output_filename,
    "w")] fails, the function calls [fclose(input_file)] on the stream that
    it has closed just before the [fopen]: no behaviour is defined from
    there on, and the [report_error] that follows in the text is not part
    of what the call is known to do. *)
Definition process_pre_assembly_for_file (file_name : string) (e : env)
    : run outcome :=
  match as_on_disk e with
  | None =>
      Returns
        {| result := false;
           errors := stderr (report_error file_name 0 ERROR_FILE_OPEN_FAILED
                               (reset_error_flag quiet));
           am_after := am_on_disk e |}
  | Some text =>
      let l1 := first_pass file_name text in
      if negb (has_errors_in_file l1) && negb (am_writable e) then
        Undefined (stderr (diag l1))
      else
        let opened := if has_errors_in_file l1 then None else Some EmptyString in
        let l2 := second_pass text l1 opened in
        Returns
          {| result := negb (has_errors_in_file l2) && negb (has_errors (diag l2));
             errors := stderr (diag l2);
             am_after :=
               match output_file l2 with
               | Some written => Some written
               | None => am_on_disk e
               end |}
  end.

End PreAssembler.

(* ================================================================== *)
(** ** src/main.c, from the line [// === pre_assembler copy.c ===] on *)

Module PreAssemblerCopy.
Import CLib Definitions ErrorHandler Utils Files.

(** [Macro] with its [MacroContentNode] list as a list of lines. *)
Record Macro : Set := {
  name : string;
  content : list string
}.

(** The module's statics and the locals of [process_pre_assembly_for_file]
    that outlive one iteration. [g_current_macro] points into the list:
    it is the position of its node, [None] for NULL. [returned] is set by
    the [return FALSE] inside the loop. *)
Record state : Set := {
  g_macros_list : list Macro;
  g_in_macro_definition : bool;
  g_current_macro : option nat;
  g_current_line_number : nat;
  s_current_file_name_for_errors : string;
  diag : sink;
  am_file : option string;
  overall_success : bool;
  has_non_empty_lines : bool;
  returned : bool
}.

Definition with_diag (s : state) (k : sink) : state :=
  {| g_macros_list := g_macros_list s;
     g_in_macro_definition := g_in_macro_definition s;
     g_current_macro := g_current_macro s;
     g_current_line_number := g_current_line_number s;
     s_current_file_name_for_errors := s_current_file_name_for_errors s;
     diag := k;
     am_file := am_file s;
     overall_success := overall_success s;
     has_non_empty_lines := has_non_empty_lines s;
     returned := returned s |}.

(** [report_error(file, line, kind)] on the state's sink. *)
Definition report (file : string) (line : nat) (kind : ErrorType) (s : state) : state :=
  with_diag s (report_error file line kind (diag s)).

(** [report_error(s_current_file_name_for_errors, g_current_line_number, kind)]. *)
Definition report_here (kind : ErrorType) (s : state) : state :=
  report (s_current_file_name_for_errors s) (g_current_line_number s) kind s.

Definition strtok_delims : string :=
  String SP (String HT (String LF (String CR EmptyString))).

Fixpoint find_macro_in_list (l : list Macro) (macro_name : string) : option Macro :=
  match l with
  | [] => None
  | m :: rest =>
      if streq (name m) macro_name then Some m else find_macro_in_list rest macro_name
  end.

Definition create_macro_list_node (macro_name : string) : Macro :=
  {| name := strncpy macro_name MAX_LABEL_LENGTH; content := [] |}.

Definition add_macro_to_list (l : list Macro) (new_macro_node : Macro) : list Macro :=
  (l ++ [new_macro_node])%list.

(** The list with [line_text] appended to the content of node [i]. *)
Fixpoint append_content (l : list Macro) (i : nat) (line_text : string) : list Macro :=
  match l, i with
  | [], _ => []
  | m :: rest, 0 =>
      {| name := name m; content := (content m ++ [line_text])%list |} :: rest
  | m :: rest, S i' => m :: append_content rest i' line_text
  end.

Definition add_line_to_current_macro_content (line_text : string) (s : state)
    : bool * state :=
  match g_current_macro s with
  | None => (false, report_here ERROR_INTERNAL_ERROR s)
  | Some i =>
      (true,
       {| g_macros_list := append_content (g_macros_list s) i line_text;
          g_in_macro_definition := g_in_macro_definition s;
          g_current_macro := g_current_macro s;
          g_current_line_number := g_current_line_number s;
          s_current_file_name_for_errors := s_current_file_name_for_errors s;
          diag := diag s;
          am_file := am_file s;
          overall_success := overall_success s;
          has_non_empty_lines := has_non_empty_lines s;
          returned := returned s |})
  end.

(** The loop [while (p[0] == ' ' || p[0] == '\t') p++]. *)
Fixpoint skip_blanks (p : string) : string :=
  match p with
  | EmptyString => EmptyString
  | String c rest =>
      if Ascii.eqb c SP || Ascii.eqb c HT then skip_blanks rest else p
  end.

(** [Some name]: TRUE with [name] in [macro_name_buffer]; [None]: FALSE. *)
Definition is_macro_definition_start (line : string) (buffer_size : nat) (s : state)
    : option string * state :=
  let line_copy := strncpy line MAX_LINE_LENGTH in
  match strtok line_copy strtok_delims with
  | None => (None, s)
  | Some (macro_keyword, rest) =>
      if negb (streq macro_keyword "mcro") then (None, s)
      else
        match strtok rest strtok_delims with
        | None => (None, report_here ERROR_MACRO_DEFINITION_SYNTAX s)
        | Some (macro_name, _) =>
            match strstr line macro_name with
            | None => (None, report_here ERROR_INTERNAL_ERROR s)
            | Some macro_name_pos =>
                let after_macro_name_ptr :=
                  skip_blanks (advance macro_name_pos (strlen macro_name)) in
                let c := deref after_macro_name_ptr in
                if negb (Ascii.eqb c NUL || Ascii.eqb c LF || Ascii.eqb c ";"%char)
                then (None, report_here ERROR_MACRO_DEFINITION_SYNTAX s)
                else if negb (is_legal_label macro_name)
                then (None, report_here ERROR_MACRO_NAME_INVALID_FORMAT s)
                else if is_reserved_keyword macro_name
                then (None, report_here ERROR_MACRO_NAME_RESERVED_KEYWORD s)
                else if g_in_macro_definition s
                then (None, report_here ERROR_NESTED_MACRO_DEFINITION s)
                else (Some (strncpy macro_name (buffer_size - 1)), s)
            end
        end
  end.

Definition is_macro_definition_end (line : string) (s : state) : bool * state :=
  let line_copy := strncpy line MAX_LINE_LENGTH in
  match strtok line_copy strtok_delims with
  | None => (false, s)
  | Some (token, rest) =>
      if negb (streq token "mcroend") then (false, s)
      else
        match strtok rest strtok_delims with
        | Some (token', _) =>
            if Ascii.eqb (deref token') ";"%char then (true, s)
            else (false, report_here ERROR_MACRO_DEFINITION_SYNTAX s)
        | None => (true, s)
        end
  end.

(** The block that guards every write to the [.am] file:
    [if (!has_errors()) { if (am_file == NULL) { am_file = fopen(..., "w");
    if (!am_file) { report_error(file_name, 0, ...); return FALSE; } }
    fputs(...) }], for the strings [texts] written in order. *)
Definition write_if_clean (writable : bool) (file_name : string)
    (texts : list string) (s : state) : state :=
  if has_errors (diag s) then s
  else
    match am_file s with
    | None =>
        if writable then
          {| g_macros_list := g_macros_list s;
             g_in_macro_definition := g_in_macro_definition s;
             g_current_macro := g_current_macro s;
             g_current_line_number := g_current_line_number s;
             s_current_file_name_for_errors := s_current_file_name_for_errors s;
             diag := diag s;
             am_file := Some (String.concat EmptyString texts);
             overall_success := overall_success s;
             has_non_empty_lines := has_non_empty_lines s;
             returned := returned s |}
        else
          let s' := report file_name 0 ERROR_FILE_OPEN_FAILED s in
          {| g_macros_list := g_macros_list s';
             g_in_macro_definition := g_in_macro_definition s';
             g_current_macro := g_current_macro s';
             g_current_line_number := g_current_line_number s';
             s_current_file_name_for_errors := s_current_file_name_for_errors s';
             diag := diag s';
             am_file := None;
             overall_success := overall_success s';
             has_non_empty_lines := has_non_empty_lines s';
             returned := true |}
    | Some written =>
        {| g_macros_list := g_macros_list s;
           g_in_macro_definition := g_in_macro_definition s;
           g_current_macro := g_current_macro s;
           g_current_line_number := g_current_line_number s;
           s_current_file_name_for_errors := s_current_file_name_for_errors s;
           diag := diag s;
           am_file := Some (written ++ String.concat EmptyString texts);
           overall_success := overall_success s;
           has_non_empty_lines := has_non_empty_lines s;
           returned := returned s |}
    end.

Definition set_line_number (n : nat) (s : state) : state :=
  {| g_macros_list := g_macros_list s;
     g_in_macro_definition := g_in_macro_definition s;
     g_current_macro := g_current_macro s;
     g_current_line_number := n;
     s_current_file_name_for_errors := s_current_file_name_for_errors s;
     diag := diag s;
     am_file := am_file s;
     overall_success := overall_success s;
     has_non_empty_lines := has_non_empty_lines s;
     returned := returned s |}.

Definition set_has_non_empty_lines (s : state) : state :=
  {| g_macros_list := g_macros_list s;
     g_in_macro_definition := g_in_macro_definition s;
     g_current_macro := g_current_macro s;
     g_current_line_number := g_current_line_number s;
     s_current_file_name_for_errors := s_current_file_name_for_errors s;
     diag := diag s;
     am_file := am_file s;
     overall_success := overall_success s;
     has_non_empty_lines := true;
     returned := returned s |}.

Definition set_overall_failure (s : state) : state :=
  {| g_macros_list := g_macros_list s;
     g_in_macro_definition := g_in_macro_definition s;
     g_current_macro := g_current_macro s;
     g_current_line_number := g_current_line_number s;
     s_current_file_name_for_errors := s_current_file_name_for_errors s;
     diag := diag s;
     am_file := am_file s;
     overall_success := false;
     has_non_empty_lines := has_non_empty_lines s;
     returned := returned s |}.

(** [g_in_macro_definition = FALSE; g_current_macro = NULL;] *)
Definition close_definition (s : state) : state :=
  {| g_macros_list := g_macros_list s;
     g_in_macro_definition := false;
     g_current_macro := None;
     g_current_line_number := g_current_line_number s;
     s_current_file_name_for_errors := s_current_file_name_for_errors s;
     diag := diag s;
     am_file := am_file s;
     overall_success := overall_success s;
     has_non_empty_lines := has_non_empty_lines s;
     returned := returned s |}.

(** [add_macro_to_list(new_node); g_current_macro = &new_node->macro;
    g_in_macro_definition = TRUE;] *)
Definition open_definition (new_node : Macro) (s : state) : state :=
  {| g_macros_list := add_macro_to_list (g_macros_list s) new_node;
     g_in_macro_definition := true;
     g_current_macro := Some (List.length (g_macros_list s));
     g_current_line_number := g_current_line_number s;
     s_current_file_name_for_errors := s_current_file_name_for_errors s;
     diag := diag s;
     am_file := am_file s;
     overall_success := overall_success s;
     has_non_empty_lines := has_non_empty_lines s;
     returned := returned s |}.

Definition sizeof_temp_macro_name : nat := MAX_LABEL_LENGTH + 1.
Definition sizeof_line_buffer : nat := MAX_LINE_LENGTH + 2.

(** The macro-call check on [trimmed_line]: the macro to expand, if any. *)
Definition called_macro_of (trimmed_line : string) (s : state) : option Macro * state :=
  let line_copy_for_call_check := strncpy trimmed_line MAX_LINE_LENGTH in
  match strtok line_copy_for_call_check strtok_delims with
  | None => (None, s)
  | Some (first_token, rest) =>
      match find_macro_in_list (g_macros_list s) first_token with
      | None => (None, s)
      | Some called_macro =>
          match strtok rest strtok_delims with
          | None => (Some called_macro, s)
          | Some (extra_token, _) =>
              if Ascii.eqb (deref extra_token) ";"%char then (Some called_macro, s)
              else (None, report_here ERROR_GENERIC_SYNTAX_ERROR s)
          end
      end
  end.

(** The branch [if (g_in_macro_definition) ... else ...] at the end of the
    loop body. *)
Definition define_or_expand (writable : bool) (file_name : string)
    (line_buffer trimmed_line : string) (s : state) : state :=
  if g_in_macro_definition s then
    let (ended, s1) := is_macro_definition_end trimmed_line s in
    if ended then close_definition s1
    else
      let (ok, s2) := add_line_to_current_macro_content line_buffer s1 in
      if ok then s2 else set_overall_failure s2
  else
    let (called_macro, s1) := called_macro_of trimmed_line s in
    match called_macro with
    | Some macro_to_expand =>
        write_if_clean writable file_name (content macro_to_expand) s1
    | None =>
        let (started, s2) :=
          is_macro_definition_start trimmed_line sizeof_temp_macro_name s1 in
        match started with
        | Some temp_macro_name =>
            open_definition (create_macro_list_node temp_macro_name) s2
        | None => write_if_clean writable file_name [line_buffer] s2
        end
    end.

(** The test of the line length limit. *)
Definition exceeds_limit (line_buffer : string) : bool :=
  (MAX_LINE_LENGTH <? strlen line_buffer)
  && negb (Ascii.eqb (char_at line_buffer MAX_LINE_LENGTH) LF)
  && negb (Ascii.eqb (char_at line_buffer MAX_LINE_LENGTH) NUL).

(** [trimmed_line] after [strncpy(trimmed_line, line_buffer, MAX_LINE_LENGTH)]
    and [trim_whitespace(trimmed_line)], whose result is not used. *)
Definition trimmed_copy (line_buffer : string) : string :=
  trim_whitespace_in_place (strncpy line_buffer MAX_LINE_LENGTH).

(** The check for a [mcroend] without a [mcro]; the loop goes on with the
    same line afterwards. *)
Definition check_unexpected_end (file_name trimmed_line : string) (s : state) : state :=
  if negb (g_in_macro_definition s) then
    let (ended, s') := is_macro_definition_end trimmed_line s in
    if ended
    then report file_name (g_current_line_number s') ERROR_UNEXPECTED_MACRO_END s'
    else s'
  else s.

(** The rest of the loop body: blank and comment lines outside a
    definition are copied, [continue]; other lines go on to
    [define_or_expand]. *)
Definition copy_or_dispatch (writable : bool) (file_name : string)
    (line_buffer trimmed_line : string) (s1 : state) : state :=
  if negb (g_in_macro_definition s1) && is_empty_or_comment_line trimmed_line
  then write_if_clean writable file_name [line_buffer] s1
  else
    let s2 :=
      if negb (g_in_macro_definition s1) then set_has_non_empty_lines s1 else s1 in
    define_or_expand writable file_name line_buffer trimmed_line s2.

(** Body of the [while (fgets ...)] loop; [line_buffer] is the C string in
    the buffer. Nothing runs once the function has returned. *)
Definition process_line (writable : bool) (file_name : string) (s0 : state)
    (line_buffer : string) : state :=
  if returned s0 then s0
  else
    let s := set_line_number (S (g_current_line_number s0)) s0 in
    if exceeds_limit line_buffer
    then report file_name (g_current_line_number s) ERROR_LINE_TOO_LONG s
    else
      let trimmed_line := trimmed_copy line_buffer in
      copy_or_dispatch writable file_name line_buffer trimmed_line
        (check_unexpected_end file_name trimmed_line s).

Definition lines_of (text : string) : list string :=
  map c_str (read_lines sizeof_line_buffer text).

Definition entry (file_name : string) : state :=
  {| g_macros_list := [];
     g_in_macro_definition := false;
     g_current_macro := None;
     g_current_line_number := 0;
     s_current_file_name_for_errors := file_name;
     diag := reset_error_flag quiet;
     am_file := None;
     overall_success := true;
     has_non_empty_lines := false;
     returned := false |}.

(** The state when the loop is left. *)
Definition scan (writable : bool) (file_name text : string) : state :=
  fold_left (process_line writable file_name) (lines_of text) (entry file_name).

(** The two checks that follow the loop. *)
Definition final_checks (file_name : string) (s : state) : state :=
  let s1 :=
    if g_in_macro_definition s
    then set_overall_failure (report_here ERROR_UNCLOSED_MACRO_DEFINITION s)
    else s in
  if negb (has_non_empty_lines s1)
  then set_overall_failure (report file_name 0 ERROR_EMPTY_OR_COMMENT_FILE s1)
  else s1.

Definition process_pre_assembly_for_file (file_name : string) (e : env) : outcome :=
  match as_on_disk e with
  | None =>
      {| result := false;
         errors := stderr (report_error file_name 0 ERROR_FILE_OPEN_FAILED
                             (reset_error_flag quiet));
         am_after := am_on_disk e |}
  | Some text =>
      let s := scan (am_writable e) file_name text in
      if returned s then
        {| result := false; errors := stderr (diag s); am_after := am_on_disk e |}
      else
        let s' := final_checks file_name s in
        if has_errors (diag s') || negb (overall_success s') then
          {| result := false;
             errors := stderr (diag s');
             am_after :=
               match am_file s' with
               | Some _ => None
               | None => am_on_disk e
               end |}
        else
          {| result := overall_success s';
             errors := stderr (diag s');
             am_after :=
               match am_file s' with
               | Some written => Some written
               | None => am_on_disk e
               end |}
  end.

End PreAssemblerCopy.

(* ================================================================== *)
(** ** The specification's words, and sample inputs *)

Module Spec.
Import CLib Definitions Utils Files.

Fixpoint every_char (p : ascii -> bool) (s : string) : Prop :=
  match s with
  | EmptyString => True
  | String c rest => p c = true /\ every_char p rest
  end.

(** MacroName of the data model, over a given set of reserved keywords:
    1..30 characters, the first alphabetic, the others alphanumeric or
    underscore, not a reserved keyword. *)
Definition MacroName (reserved : string -> bool) (s : string) : Prop :=
  1 <= String.length s <= MAX_LABEL_LENGTH /\
  match s with
  | EmptyString => False
  | String c rest => is_alpha c = true /\ every_char is_alphanumeric rest
  end /\
  reserved s = false.

(** The reserved keywords when the two macro directives count as reserved
    as well. *)
Definition reserved_with_directives (s : string) : bool :=
  is_reserved_keyword s || streq s "mcro" || streq s "mcroend".

(** A text file: no NUL byte in it. *)
Definition is_text (text : string) : Prop := c_str text = text.

(** The lines of a text, each without its terminator. *)
Fixpoint split_lines (text : string) : list string :=
  match text with
  | EmptyString => []
  | String c rest =>
      if Ascii.eqb c LF then EmptyString :: split_lines rest
      else match split_lines rest with
           | [] => [String c EmptyString]
           | line :: more => String c line :: more
           end
  end.

(** The characters up to the first whitespace. *)
Fixpoint word (s : string) : string :=
  match s with
  | EmptyString => EmptyString
  | String c rest => if is_whitespace c then EmptyString else String c (word rest)
  end.

(** The first token of a line: its first run of characters that are not
    whitespace. *)
Definition first_token (line : string) : string := word (skip_whitespace line).

(** A macro line of the line classifier: the first token is the start
    keyword or the end keyword. *)
Definition is_macro_line (line : string) : bool :=
  streq (first_token line) "mcro" || streq (first_token line) "mcroend".

(** A text without macro definitions: none of its lines is a macro line. *)
Definition no_macro_lines (text : string) : bool :=
  forallb (fun line => negb (is_macro_line line)) (split_lines text).

End Spec.

Module Samples.
Import CLib Files.

Definition nl : string := String LF EmptyString.

Fixpoint unlines (l : list string) : string :=
  match l with
  | [] => EmptyString
  | x :: rest => x ++ nl ++ unlines rest
  end.

Fixpoint repeat_char (n : nat) (c : ascii) : string :=
  match n with
  | 0 => EmptyString
  | S k => String c (repeat_char k c)
  end.

(** A directory with [text] as the [.as] file and no [.am] file yet. *)
Definition fresh (text : string) : env :=
  {| as_on_disk := Some text; am_on_disk := None; am_writable := true |}.

(** The example of the specification. *)
Definition define_and_call : string :=
  unlines ["mcro FOO"; "add r1,r2"; "mcroend"; "FOO"].

Definition define_only : string :=
  unlines ["mcro FOO"; "add r1,r2"; "mcroend"].

Definition unclosed : string :=
  unlines ["mcro FOO"; "add r1,r2"].

Definition defined_twice : string :=
  unlines ["mcro FOO"; "add r1,r2"; "mcroend";
           "mcro FOO"; "sub r1,r2"; "mcroend"; "FOO"].

Definition nested : string :=
  unlines ["mcro A"; "mcro B"; "x"; "mcroend"; "A"].

Definition stray_end : string :=
  unlines ["stop"; "mcroend"].

(** Line 2 has 85 characters. *)
Definition long_body_line : string :=
  unlines ["mcro M"; repeat_char 85 "x"; "mcroend"; "M"].

Definition plain : string :=
  unlines ["; a comment"; "MAIN: mov r1, r2"; EmptyString; "stop"].

(** Line 1 has 85 characters. *)
Definition long_line : string :=
  unlines [repeat_char 85 "x"; "stop"].

(** A second [mcro] line after one body line of the first. *)
Definition nested_open : string :=
  unlines ["mcro A"; "x"; "mcro B"].

(** Two ordinary lines; the first token of the first one begins with the
    letters of the start keyword. *)
Definition keyword_prefix : string :=
  unlines ["mcrox"; "stop"].

(** A directory that still holds an [.am] file of an earlier run. *)
Definition stale (text old : string) : env :=
  {| as_on_disk := Some text; am_on_disk := Some old; am_writable := true |}.

End Samples.

(* ================================================================== *)
(** ** Invariants of the diagnostics sink *)

Module Invariants.
Import ErrorHandler.

(** The flag is up exactly when something was printed. *)
Definition consistent (k : sink) : Prop :=
  g_errors_occurred k = true <-> stderr k <> [].

(** [reports allowed k k']: [k'] is [k] after zero or more calls of
    [report_error], each with a kind in [allowed]. *)
Inductive reports (allowed : ErrorType -> Prop) (k : sink) : sink -> Prop :=
  | reports_none : reports allowed k k
  | reports_more (k' : sink) (file_name : string) (line_number : nat)
      (kind : ErrorType) :
      reports allowed k k' ->
      allowed kind ->
      reports allowed k (report_error file_name line_number kind k').

Definition any_kind (kind : ErrorType) : Prop := True.

Definition not_nested (kind : ErrorType) : Prop :=
  kind <> ERROR_NESTED_MACRO_DEFINITION.

(** No buffer read from [text] is taken for the start or the end of a
    definition by the classifiers of [src/pre_assembler.c]. *)
Definition never_classified (text : string) : bool :=
  forallb
    (fun line =>
       negb (fst (PreAssembler.is_macro_definition_start (Some line)
                    (Some EmptyString) PreAssembler.sizeof_current_macro_name))
       && negb (PreAssembler.is_macro_definition_end (Some line)))
    (PreAssembler.lines_of text).

(** The text in a file that may not be open yet. *)
Definition text_of (file : option string) : string :=
  match file with
  | Some written => written
  | None => EmptyString
  end.

(** A state of the copy's loop in which nothing has been reported and no
    macro has been defined. *)
Definition clean (s : PreAssemblerCopy.state) : Prop :=
  PreAssemblerCopy.returned s = false
  /\ PreAssemblerCopy.diag s = reset_error_flag quiet
  /\ PreAssemblerCopy.g_macros_list s = []
  /\ PreAssemblerCopy.g_in_macro_definition s = false
  /\ PreAssemblerCopy.overall_success s = true.

(** A state in which something has been reported or defined. *)
Definition dirty (s : PreAssemblerCopy.state) : Prop :=
  stderr (PreAssemblerCopy.diag s) <> [] \/ PreAssemblerCopy.g_macros_list s <> [].

End Invariants.

(* ================================================================== *)
(** ** src/utils.c: the lookup and conversion functions *)

Module UtilsRest.
Import CLib Definitions Utils.

(** Pointer arguments are [option]s, [None] for NULL. *)
Definition is_comment_line (line : option string) : bool :=
  match line with
  | None => false
  | Some line' =>
      let trimmed_line := skip_whitespace line' in
      if Ascii.eqb (deref trimmed_line) ";"%char then true else false
  end.

(** [is_empty_or_comment_line] with its NULL test. *)
Definition is_empty_or_comment_line_ptr (line : option string) : bool :=
  match line with
  | None => true
  | Some line' => is_empty_or_comment_line line'
  end.

Definition BASE4_A : ascii := "a"%char.
Definition BASE4_B : ascii := "b"%char.
Definition BASE4_C : ascii := "c"%char.
Definition BASE4_D : ascii := "d"%char.

Definition base4_chars : list ascii := [BASE4_A; BASE4_B; BASE4_C; BASE4_D].

(** [(unsigned int)decimal_value] for a 32-bit [int]. *)
Definition to_unsigned_int (decimal_value : Z) : Z := (decimal_value mod 2 ^ 32)%Z.

(** The [for (i = 0; i < 5; i++)] loop with [rounds] iterations to go:
    [written] is what the buffer holds from index [rounds] on. *)
Fixpoint base4_loop (rounds : nat) (temp_value : Z) (written : string) : string :=
  match rounds with
  | 0 => written
  | S rounds' =>
      let two_bits := Z.land temp_value 3 in
      base4_loop rounds' (Z.shiftr temp_value 2)
        (String (nth (Z.to_nat two_bits) base4_chars NUL) written)
  end.

(** The string left in [base4_buffer]. *)
Definition convert_decimal_to_unique_base4 (decimal_value : Z) : string :=
  let temp_value := Z.land (to_unsigned_int decimal_value) 1023 in
  base4_loop 5 temp_value EmptyString.

(** The loop [for (i = ...; i < n; i++) if (strcmp(name, names[i]) == 0)]
    from index [i] on: the first index that matches. *)
Fixpoint first_match (name : string) (names : list string) (i : nat) : option nat :=
  match names with
  | [] => None
  | candidate :: rest =>
      if streq name candidate then Some i else first_match name rest (S i)
  end.

(** The result and the integer that [opcode_val] points to afterwards. *)
Definition get_opcode_value (op_name : string) (opcode_val : Z) : bool * Z :=
  match first_match op_name opcode_names 0 with
  | Some i => (true, Z.of_nat i)
  | None => (false, opcode_val)
  end.

Definition get_register_number (str : option string) : Z :=
  match str with
  | None => (-1)%Z
  | Some s =>
      if negb (strlen s =? 2) || negb (Ascii.eqb (char_at s 0) "r"%char) then (-1)%Z
      else
        let digit_char := char_at s 1 in
        if (nat_of_ascii "0"%char <=? nat_of_ascii digit_char)
           && (nat_of_ascii digit_char <=? nat_of_ascii "7"%char)
        then (Z.of_nat (nat_of_ascii digit_char) - Z.of_nat (nat_of_ascii "0"%char))%Z
        else (-1)%Z
  end.

End UtilsRest.

(* ================================================================== *)
(** ** src/main.c: [main] and [is_macro_call] *)

Module MainProgram.
Import CLib Definitions ErrorHandler Utils Files.

(** [main], over the [process_pre_assembly_for_file] it is linked with:
    the exit status and the [.am] file afterwards. [argv] holds the
    program name and the arguments. *)
Definition main (process : string -> env -> run outcome) (argv : list string)
    (e : env) : run (Z * option string) :=
  match argv with
  | [_; file_name] =>
      match process file_name e with
      | Returns o =>
          if result o then
            match am_after o with
            | Some _ => Returns (0%Z, am_after o)
            | None => Returns (1%Z, am_after o)
            end
          else Returns (1%Z, am_after o)
      | Undefined printed => Undefined printed
      end
  | _ => Returns (1%Z, am_on_disk e)
  end.

(** The function of the copy, which returns on every path. *)
Definition process_of_copy (file_name : string) (e : env) : run outcome :=
  Returns (PreAssemblerCopy.process_pre_assembly_for_file file_name e).

(** [is_macro_call] of the copy; its second parameter is not used. *)
Definition is_macro_call (line : string) (s : PreAssemblerCopy.state)
    : option string * PreAssemblerCopy.state :=
  let line_copy := strncpy line MAX_LINE_LENGTH in
  match strtok line_copy PreAssemblerCopy.strtok_delims with
  | None => (None, s)
  | Some (first_token, rest) =>
      match PreAssemblerCopy.find_macro_in_list (PreAssemblerCopy.g_macros_list s)
              first_token with
      | Some found_macro =>
          match strtok rest PreAssemblerCopy.strtok_delims with
          | Some (extra_token, _) =>
              if Ascii.eqb (deref extra_token) ";"%char
              then (Some (PreAssemblerCopy.name found_macro), s)
              else (None, PreAssemblerCopy.report_here ERROR_GENERIC_SYNTAX_ERROR s)
          | None => (Some (PreAssemblerCopy.name found_macro), s)
          end
      | None => (None, s)
      end
  end.

End MainProgram.

(* ================================================================== *)
(** ** Words for the further properties *)

Module Words.
Import CLib Definitions ErrorHandler Utils Files.

(** The value of a string of base-4 digits [a], [b], [c], [d], most
    significant first; [None] when another character occurs. *)
Definition base4_digit (c : ascii) : option Z :=
  if Ascii.eqb c "a"%char then Some 0%Z
  else if Ascii.eqb c "b"%char then Some 1%Z
  else if Ascii.eqb c "c"%char then Some 2%Z
  else if Ascii.eqb c "d"%char then Some 3%Z
  else None.

Fixpoint base4_value_from (acc : Z) (s : string) : option Z :=
  match s with
  | EmptyString => Some acc
  | String c rest =>
      match base4_digit c with
      | Some d => base4_value_from (4 * acc + d)%Z rest
      | None => None
      end
  end.

Definition base4_value (s : string) : option Z := base4_value_from 0%Z s.

Fixpoint last_char (s : string) : option ascii :=
  match s with
  | EmptyString => None
  | String c EmptyString => Some c
  | String _ rest => last_char rest
  end.

Definition first_char (s : string) : option ascii :=
  match s with
  | EmptyString => None
  | String c _ => Some c
  end.

(** Neither the first nor the last character is whitespace. *)
Definition trimmed (s : string) : Prop :=
  match first_char s, last_char s with
  | Some a, Some z => is_whitespace a = false /\ is_whitespace z = false
  | _, _ => s = EmptyString
  end.

Definition all_whitespace (s : string) : Prop := Spec.every_char is_whitespace s.

(** A sequence of [report_error] calls. *)
Definition report_all (calls : list diagnostic) (k : sink) : sink :=
  fold_left (fun k' d => report_error (d_file d) (d_line d) (d_kind d) k') calls k.

Definition is_nil {A : Type} (l : list A) : bool :=
  match l with
  | [] => true
  | _ => false
  end.

(** The kinds that the copy in [src/main.c] can report. *)
Definition single_pass_kinds : list ErrorType :=
  [ERROR_FILE_OPEN_FAILED; ERROR_LINE_TOO_LONG; ERROR_EMPTY_OR_COMMENT_FILE;
   ERROR_MACRO_NAME_INVALID_FORMAT; ERROR_MACRO_DEFINITION_SYNTAX;
   ERROR_UNEXPECTED_MACRO_END; ERROR_UNCLOSED_MACRO_DEFINITION;
   ERROR_GENERIC_SYNTAX_ERROR].

Definition single_pass_kind (kind : ErrorType) : Prop := In kind single_pass_kinds.

(** The kinds that [src/pre_assembler.c] can report. *)
Definition two_pass_kinds : list ErrorType :=
  [ERROR_FILE_OPEN_FAILED; ERROR_MACRO_NAME_RESERVED_KEYWORD;
   ERROR_MACRO_NAME_INVALID_FORMAT; ERROR_LABEL_REDEFINITION].

(** What the loop of the copy keeps true of its state: inside a definition
    [g_current_macro] points to the last node of the list, outside it is
    NULL; every name in the list is a legal label; [overall_success] is
    still TRUE. *)
Definition well_formed (s : PreAssemblerCopy.state) : Prop :=
  (if PreAssemblerCopy.g_in_macro_definition s
   then exists i, PreAssemblerCopy.g_current_macro s = Some i
                  /\ S i = List.length (PreAssemblerCopy.g_macros_list s)
   else True)
  /\ Forall (fun m => is_legal_label (PreAssemblerCopy.name m) = true)
       (PreAssemblerCopy.g_macros_list s)
  /\ PreAssemblerCopy.overall_success s = true.


(** What the first loop of [src/pre_assembler.c] keeps true of its table:
    every entry has a body of at least one character, [body_length] is its
    length, and the name has at most [MAX_LABEL_LENGTH] characters. *)
Definition recorded (m : PreAssembler.Macro) : Prop :=
  0 < PreAssembler.body_length m
  /\ PreAssembler.body_length m = strlen (PreAssembler.body m)
  /\ strlen (PreAssembler.name m) <= MAX_LABEL_LENGTH.

End Words.

(* ================================================================== *)
(** ** Further sample inputs *)

Module MoreSamples.
Import CLib Definitions ErrorHandler Files Samples.

(** The first loop of [src/pre_assembler.c] with FOO already recorded. *)
Definition foo_recorded : PreAssembler.locals :=
  {| PreAssembler.line_number := 3;
     PreAssembler.in_macro_definition := false;
     PreAssembler.current_macro_name := "FOO";
     PreAssembler.macro_body := EmptyString;
     PreAssembler.has_errors_in_file := false;
     PreAssembler.g_macros :=
       PreAssembler.add_macro [] "FOO" ("add r1,r2" ++ nl) 10;
     PreAssembler.diag := reset_error_flag quiet;
     PreAssembler.output_file := None |}.

Definition mcro_foo_line : string := "mcro FOO" ++ nl.
Definition mcro_mov_line : string := "mcro mov" ++ nl.

(** A [mcro] line with a name of 31 letters. *)
Definition mcro_long_name_line : string := "mcro " ++ repeat_char 31 "A" ++ nl.
Definition mcroend_line : string := "mcroend" ++ nl.

(** The first 81 bytes of a line that goes on after [mcroend] and 74
    blanks. *)
Definition mcroend_padded : string := "mcroend" ++ repeat_char 74 " ".


(** A directory in which no [.am] file can be opened. *)
Definition read_only (text : string) : env :=
  {| as_on_disk := Some text; am_on_disk := None; am_writable := false |}.

Definition foo_call_line : string := "FOO" ++ nl.
Definition labelled_call_line : string := "LOOP: FOO" ++ nl.
Definition body_line : string := "  add r1,r2" ++ nl.

(** The first 81 bytes of a line of more than 81 letters. *)
Definition long_buffer : string := repeat_char 81 "x".

(** The loop of the copy after the three lines of [define_only]. *)
Definition foo_defined : PreAssemblerCopy.state :=
  PreAssemblerCopy.scan true "prog" define_only.

(** The loop of the copy after the line [mcro FOO]. *)
Definition foo_open : PreAssemblerCopy.state :=
  PreAssemblerCopy.scan true "prog" mcro_foo_line.

(** The second loop of [src/pre_assembler.c] with FOO recorded and two
    characters written. *)
Definition foo_second_pass : PreAssembler.locals :=
  PreAssembler.rewind foo_recorded (Some "; ").

End MoreSamples.

(* ================================================================== *)
(** * Properties *)

(** ** Reading a file line by line *)

Module CLibFacts.
Import CLib.

Lemma append_empty_r (s : string) : s ++ EmptyString = s.
Proof. induction s as [|c s IH]; simpl; [reflexivity | now rewrite IH]. Qed.

Lemma append_assoc (a b c : string) : (a ++ b) ++ c = a ++ (b ++ c).
Proof. induction a as [|x a IH]; simpl; [reflexivity | now rewrite IH]. Qed.

Lemma length_append (a b : string) :
  String.length (a ++ b) = String.length a + String.length b.
Proof. induction a as [|x a IH]; simpl; [reflexivity | now rewrite IH]. Qed.

Lemma concat_singleton (x : string) : String.concat EmptyString [x] = x.
Proof. reflexivity. Qed.

Lemma fgets_bytes_split (room : nat) :
  forall stream buf rest,
    fgets_bytes room stream = (buf, rest) -> stream = buf ++ rest.
Proof.
  induction room as [|room IH]; intros stream buf rest H.
  - simpl in H. destruct stream; inversion H; reflexivity.
  - destruct stream as [|c s]; simpl in H.
    + inversion H; reflexivity.
    + destruct (Ascii.eqb c LF).
      * inversion H; reflexivity.
      * destruct (fgets_bytes room s) as [b r] eqn:E.
        inversion H; subst. simpl. f_equal. now apply IH.
Qed.

Lemma fgets_bytes_room (room : nat) :
  forall stream buf rest,
    fgets_bytes room stream = (buf, rest) -> String.length buf <= room.
Proof.
  induction room as [|room IH]; intros stream buf rest H.
  - simpl in H. destruct stream; inversion H; simpl; lia.
  - destruct stream as [|c s]; simpl in H.
    + inversion H; simpl; lia.
    + destruct (Ascii.eqb c LF).
      * inversion H; simpl; lia.
      * destruct (fgets_bytes room s) as [b r] eqn:E.
        inversion H; subst. simpl. apply IH in E. lia.
Qed.

Lemma fgets_bytes_first (room : nat) (c : ascii) (s buf rest : string) :
  fgets_bytes (S room) (String c s) = (buf, rest) ->
  exists buf', buf = String c buf'.
Proof.
  simpl. destruct (Ascii.eqb c LF).
  - intros H; inversion H; eauto.
  - destruct (fgets_bytes room s); intros H; inversion H; eauto.
Qed.

(** A buffer filled by [fgets(buf, size, f)] holds less than [size] bytes. *)
Lemma fgets_loop_bound (size : nat) :
  forall fuel stream,
    Forall (fun buf => String.length buf <= size - 1) (fgets_loop fuel size stream).
Proof.
  induction fuel as [|fuel IH]; intros stream; simpl; [constructor|].
  unfold fgets. destruct stream as [|c s]; [constructor|].
  destruct (fgets_bytes (size - 1) (String c s)) as [buf rest] eqn:E.
  constructor; [now apply fgets_bytes_room in E | apply IH].
Qed.

Lemma c_str_length (buf : string) : String.length (c_str buf) <= String.length buf.
Proof.
  induction buf as [|c s IH]; simpl; [lia|].
  destruct (Ascii.eqb c NUL); simpl; lia.
Qed.

Lemma c_str_append (a b : string) :
  c_str (a ++ b) = a ++ b -> c_str a = a /\ c_str b = b.
Proof.
  induction a as [|x a IH]; simpl; [auto|].
  destruct (Ascii.eqb x NUL); [discriminate|].
  intros H. inversion H as [H']. destruct (IH H') as [Ha Hb].
  split; [now f_equal | assumption].
Qed.

(** Read to end of file, the buffers of a text file give the file back. *)
Lemma fgets_loop_join (room : nat) :
  forall fuel stream,
    c_str stream = stream ->
    String.length stream <= fuel ->
    join (map c_str (fgets_loop fuel (S (S room)) stream)) = stream.
Proof.
  induction fuel as [|fuel IH]; intros stream Htext Hlen.
  - destruct stream; simpl in *; [reflexivity | lia].
  - destruct stream as [|c s]; [reflexivity|].
    destruct (fgets_bytes (S room) (String c s)) as [buf rest] eqn:E.
    change (fgets_loop (S fuel) (S (S room)) (String c s))
      with (let (b, r) := fgets_bytes (S room) (String c s) in
            b :: fgets_loop fuel (S (S room)) r).
    rewrite E.
    pose proof (fgets_bytes_split _ _ _ _ E) as Hsplit.
    destruct (fgets_bytes_first _ _ _ _ _ E) as [buf' Hbuf].
    rewrite Hsplit in Htext. apply c_str_append in Htext as [Hb Hr].
    change (join (map c_str (buf :: fgets_loop fuel (S (S room)) rest)))
      with (c_str buf ++ join (map c_str (fgets_loop fuel (S (S room)) rest))).
    rewrite Hb, IH; auto.
    assert (String.length (String c s) = String.length buf + String.length rest)
      by (rewrite Hsplit at 1; apply length_append).
    subst buf. simpl in *. lia.
Qed.

Lemma read_lines_join (room : nat) (text : string) :
  c_str text = text ->
  join (map c_str (read_lines (S (S room)) text)) = text.
Proof. intros H. apply fgets_loop_join; auto. Qed.

End CLibFacts.

(* ================================================================== *)
(** ** src/pre_assembler.c: the two passes *)

Module PreAssemblerFacts.
Import CLib Definitions ErrorHandler Utils Files PreAssembler CLibFacts.

(** Case analysis on the tests of a loop body. *)
Ltac branches :=
  repeat match goal with
         | |- context [let (_, _) := ?p in _] => destruct p eqn:?
         | |- context [if ?b then _ else _] => destruct b eqn:?
         | |- context [match ?x with Some _ => _ | None => _ end] => destruct x eqn:?
         end.

Lemma lines_bounded (text : string) :
  Forall (fun line => strlen line <= MAX_LINE_LENGTH + 1) (lines_of text).
Proof.
  unfold lines_of, read_lines. apply Forall_map.
  eapply Forall_impl; [|apply fgets_loop_bound].
  intros buf H. pose proof (c_str_length buf).
  unfold strlen, sizeof_line, MAX_LINE_LENGTH in *. simpl in *. lia.
Qed.

(** One iteration of the first loop either reports nothing and leaves the
    error flags alone, or reports one error and raises both flags; the
    error is a bad name or a redefinition, or else the line is longer than
    the buffer. *)
Lemma first_pass_line_reports (file_name : string) (l : locals) (line : string) :
  let l' := first_pass_line file_name l line in
  (diag l' = diag l /\ has_errors_in_file l' = has_errors_in_file l)
  \/ (exists kind,
        diag l' = report_error file_name (S (line_number l)) kind (diag l)
        /\ has_errors_in_file l' = true
        /\ (MAX_LINE_LENGTH + 1 < strlen line
            \/ In kind [ERROR_MACRO_NAME_RESERVED_KEYWORD;
                        ERROR_MACRO_NAME_INVALID_FORMAT;
                        ERROR_LABEL_REDEFINITION])).
Proof.
  unfold first_pass_line; cbv zeta. branches; simpl; auto.
  all: right; eexists; (split; [reflexivity | split; [reflexivity|]]).
  all: try (right; simpl; tauto).
  left. now apply Nat.ltb_lt.
Qed.

Lemma first_pass_line_output (file_name : string) (l : locals) (line : string) :
  output_file (first_pass_line file_name l line) = output_file l.
Proof. unfold first_pass_line. branches; reflexivity. Qed.

(** The flag of the function, the flag of the error handler and the text
    on stderr agree throughout the first loop. *)
Lemma first_pass_flags (file_name : string) (lines : list string) :
  forall l,
    has_errors_in_file l = g_errors_occurred (diag l) ->
    (has_errors_in_file l = true <-> stderr (diag l) <> []) ->
    let l' := fold_left (first_pass_line file_name) lines l in
    has_errors_in_file l' = g_errors_occurred (diag l')
    /\ (has_errors_in_file l' = true <-> stderr (diag l') <> []).
Proof.
  induction lines as [|line lines IH]; intros l Hflag Hlog; simpl; [auto|].
  apply IH;
    destruct (first_pass_line_reports file_name l line) as [[Hd He] | [kind [Hd [He _]]]];
    rewrite ?Hd, ?He; auto.
  - split; [intros _|reflexivity]. simpl. now destruct (stderr (diag l)).
Qed.

(** What the first loop reports is a bad name or a redefinition. It never
    reports a line as too long: a buffer of [MAX_LINE_LENGTH + 2] bytes
    cannot hold a string of more than [MAX_LINE_LENGTH + 1] characters. *)
Lemma first_pass_kinds (file_name : string) (lines : list string) :
  forall l,
    Forall (fun line => strlen line <= MAX_LINE_LENGTH + 1) lines ->
    Forall (fun kind => In kind [ERROR_MACRO_NAME_RESERVED_KEYWORD;
                                 ERROR_MACRO_NAME_INVALID_FORMAT;
                                 ERROR_LABEL_REDEFINITION]) (kinds (diag l)) ->
    Forall (fun kind => In kind [ERROR_MACRO_NAME_RESERVED_KEYWORD;
                                 ERROR_MACRO_NAME_INVALID_FORMAT;
                                 ERROR_LABEL_REDEFINITION])
      (kinds (diag (fold_left (first_pass_line file_name) lines l))).
Proof.
  induction lines as [|line lines IH]; intros l Hlen Hkinds; simpl; [assumption|].
  inversion Hlen as [|? ? Hline Hrest]; subst.
  apply IH; [assumption|].
  destruct (first_pass_line_reports file_name l line) as [[Hd _] | [kind [Hd [_ Hk]]]];
    rewrite Hd; [assumption|].
  unfold kinds, report_error; simpl. rewrite map_app. apply Forall_app.
  split; [assumption|]. constructor; [|constructor].
  destruct Hk as [Hk | Hk]; [lia | exact Hk].
Qed.

(** The second loop reports nothing and changes neither flag nor table. *)
Lemma second_pass_line_silent (l : locals) (line : string) :
  let l' := second_pass_line l line in
  diag l' = diag l /\ has_errors_in_file l' = has_errors_in_file l
  /\ g_macros l' = g_macros l
  /\ (output_file l = None -> output_file l' = None)
  /\ (output_file l <> None -> output_file l' <> None).
Proof.
  unfold second_pass_line. branches; simpl; repeat split; auto; congruence.
Qed.

Lemma second_pass_silent (lines : list string) :
  forall l,
    let l' := fold_left second_pass_line lines l in
    diag l' = diag l /\ has_errors_in_file l' = has_errors_in_file l
    /\ g_macros l' = g_macros l
    /\ (output_file l = None -> output_file l' = None)
    /\ (output_file l <> None -> output_file l' <> None).
Proof.
  induction lines as [|line lines IH]; intros l; simpl; [tauto|].
  destruct (IH (second_pass_line l line)) as (Hd & He & Hg & Hn & Hs).
  destruct (second_pass_line_silent l line) as (Hd' & He' & Hg' & Hn' & Hs').
  rewrite Hd, He, Hg. repeat split; auto; congruence.
Qed.

(** Commit policy of [src/pre_assembler.c]: when anything was reported the
    call fails and the [.am] file is not touched; when nothing was
    reported the call succeeds and the [.am] file is what the second loop
    wrote. *)
Lemma commit_policy (file_name : string) (e : env) (o : outcome) :
  process_pre_assembly_for_file file_name e = Returns o ->
  (errors o <> [] -> result o = false /\ am_after o = am_on_disk e)
  /\ (errors o = [] ->
      exists text written,
        as_on_disk e = Some text
        /\ am_writable e = true
        /\ output_file (second_pass text (first_pass file_name text) (Some EmptyString))
           = Some written
        /\ result o = true
        /\ am_after o = Some written).
Proof.
  unfold process_pre_assembly_for_file.
  destruct (as_on_disk e) as [text|]; simpl;
    [|intros H; inversion H; subst o; simpl; split; [auto | discriminate]].
  destruct (first_pass_flags file_name (lines_of text) entry) as [Hflag Hlog];
    [reflexivity | simpl; split; [discriminate | congruence] |].
  fold (first_pass file_name text) in Hflag, Hlog.
  set (l1 := first_pass file_name text) in *.
  destruct (has_errors_in_file l1) eqn:He; simpl.
  - intros H; inversion H; subst o; clear H; simpl.
    destruct (second_pass_silent (lines_of text) (rewind l1 None))
      as (Hd & He' & _ & Hn & _).
    fold (second_pass text l1 None) in Hd, He', Hn.
    rewrite Hd, He', (Hn eq_refl); simpl. rewrite He.
    split; [auto|]. intros H. apply Hlog in H; [contradiction | reflexivity].
  - destruct (am_writable e); simpl; [|discriminate].
    intros H; inversion H; subst o; clear H; simpl.
    destruct (second_pass_silent (lines_of text) (rewind l1 (Some EmptyString)))
      as (Hd & He' & _ & _ & Hs).
    fold (second_pass text l1 (Some EmptyString)) in Hd, He', Hs.
    rewrite Hd, He'; simpl. rewrite He. unfold has_errors. rewrite <- Hflag.
    destruct (output_file (second_pass text l1 (Some EmptyString)))
      as [written|] eqn:Hout;
      [|exfalso; apply Hs; [discriminate | reflexivity]].
    split.
    + intros H. apply Hlog in H. discriminate.
    + intros _. exists text, written. repeat split; auto.
Qed.

(** The call leaves defined behaviour exactly when the [.as] file opens,
    the first loop raises no error and the [.am] file cannot be opened;
    nothing has been printed by then. *)
Lemma undefined_run (file_name : string) (e : env) :
  match process_pre_assembly_for_file file_name e with
  | Returns o =>
      as_on_disk e = None
      \/ am_writable e = true
      \/ (exists text,
            as_on_disk e = Some text
            /\ has_errors_in_file (first_pass file_name text) = true)
  | Undefined printed =>
      printed = []
      /\ am_writable e = false
      /\ exists text,
           as_on_disk e = Some text
           /\ has_errors_in_file (first_pass file_name text) = false
  end.
Proof.
  unfold process_pre_assembly_for_file.
  destruct (as_on_disk e) as [text|]; [|now left].
  destruct (first_pass_flags file_name (lines_of text) entry) as [_ Hlog];
    [reflexivity | simpl; split; [discriminate | congruence] |].
  fold (first_pass file_name text) in Hlog.
  destruct (has_errors_in_file (first_pass file_name text)) eqn:He; simpl.
  - right. right. exists text. auto.
  - destruct (am_writable e); simpl; [now right; left|].
    split; [|split; [reflexivity | exists text; auto]].
    destruct (stderr (diag (first_pass file_name text))); [reflexivity|].
    exfalso. assert (false = true) by (apply Hlog; discriminate). discriminate.
Qed.

(** X16. A redefinition in the first loop: a [mcro] line with a valid name that
    [find_macro] finds is reported once, as ERROR_LABEL_REDEFINITION, and
    leaves the table, the open definition and its body as they were. *)
Lemma redefinition_reported (file_name : string) (l : locals) (line name' : string)
    (m : Macro) :
  strlen line <= MAX_LINE_LENGTH + 1 ->
  extract_macro_name line sizeof_current_macro_name = Some name' ->
  is_valid_macro_name name' = true ->
  find_macro (g_macros l) name' = Some m ->
  let l' := first_pass_line file_name l line in
  stderr (diag l')
  = (stderr (diag l)
     ++ [Diag file_name (S (line_number l)) ERROR_LABEL_REDEFINITION])%list
  /\ g_macros l' = g_macros l
  /\ find_macro (g_macros l') name' = Some m
  /\ in_macro_definition l' = in_macro_definition l
  /\ macro_body l' = macro_body l.
Proof.
  intros Hlen Hname Hvalid Hfind. unfold first_pass_line; cbv zeta.
  apply Nat.leb_le in Hlen. rewrite Nat.leb_antisym in Hlen.
  apply negb_true_iff in Hlen. rewrite Hlen.
  unfold is_macro_definition_start. rewrite Hname. simpl name_after.
  rewrite Hvalid, Hfind. simpl. auto.
Qed.

(** The name buffer does not decide the classification. *)
Lemma start_any_buffer (line b b' : string) (n : nat) :
  fst (is_macro_definition_start (Some line) (Some b) n)
  = fst (is_macro_definition_start (Some line) (Some b') n).
Proof.
  unfold is_macro_definition_start. now destruct (extract_macro_name line n).
Qed.

Lemma is_macro_call_empty (line : string) : is_macro_call [] line = None.
Proof.
  unfold is_macro_call. destruct (scan_token _) as [macro_name stop].
  change (find_macro [] macro_name) with (@None Macro). branches; reflexivity.
Qed.

(** Lines that are neither [mcro] nor [mcroend] lines leave the first loop
    where it was, outside any definition. *)
Lemma first_pass_plain (file_name : string) (lines : list string) :
  forall l,
    Forall (fun line => strlen line <= MAX_LINE_LENGTH + 1) lines ->
    forallb
      (fun line =>
         negb (fst (is_macro_definition_start (Some line) (Some EmptyString)
                      sizeof_current_macro_name))
         && negb (is_macro_definition_end (Some line))) lines = true ->
    in_macro_definition l = false ->
    let l' := fold_left (first_pass_line file_name) lines l in
    in_macro_definition l' = false /\ g_macros l' = g_macros l
    /\ has_errors_in_file l' = has_errors_in_file l /\ diag l' = diag l.
Proof.
  induction lines as [|line lines IH]; intros l Hlen Hplain Hout; simpl; [auto|].
  inversion Hlen as [|? ? Hline Hrest]; subst.
  cbn [forallb] in Hplain. apply andb_true_iff in Hplain as [Hthis Hplain].
  apply andb_true_iff in Hthis as [Hstart Hend].
  apply negb_true_iff in Hstart, Hend.
  rewrite (start_any_buffer line _ (current_macro_name l)) in Hstart.
  assert (Hstep : let l1 := first_pass_line file_name l line in
                  in_macro_definition l1 = false /\ g_macros l1 = g_macros l
                  /\ has_errors_in_file l1 = has_errors_in_file l /\ diag l1 = diag l).
  { unfold first_pass_line; cbv zeta.
    apply Nat.leb_le in Hline. rewrite Nat.leb_antisym in Hline.
    apply negb_true_iff in Hline. rewrite Hline.
    destruct (is_macro_definition_start (Some line) (Some (current_macro_name l))
                sizeof_current_macro_name) as [started buffer].
    simpl in Hstart. subst started. rewrite Hend. simpl. auto. }
  destruct Hstep as (H1 & H2 & H3 & H4).
  destruct (IH (first_pass_line file_name l line) Hrest Hplain H1) as (I1 & I2 & I3 & I4).
  rewrite I1, I2, I3, I4. auto.
Qed.

(** With an empty table, such lines are copied by the second loop. *)
Lemma second_pass_plain (lines : list string) :
  forall l written,
    forallb
      (fun line =>
         negb (fst (is_macro_definition_start (Some line) (Some EmptyString)
                      sizeof_current_macro_name))
         && negb (is_macro_definition_end (Some line))) lines = true ->
    in_macro_definition l = false ->
    g_macros l = [] ->
    output_file l = Some written ->
    output_file (fold_left second_pass_line lines l) = Some (written ++ join lines).
Proof.
  induction lines as [|line lines IH]; intros l written Hplain Hout Htable Hfile; simpl.
  - now rewrite append_empty_r.
  - cbn [forallb] in Hplain. apply andb_true_iff in Hplain as [Hthis Hplain].
    apply andb_true_iff in Hthis as [Hstart Hend].
    apply negb_true_iff in Hstart, Hend.
    rewrite (start_any_buffer line _ (current_macro_name l)) in Hstart.
    rewrite (IH (second_pass_line l line) (written ++ line)); auto.
    + now rewrite append_assoc.
    + unfold second_pass_line.
      destruct (is_macro_definition_start (Some line) (Some (current_macro_name l))
                  sizeof_current_macro_name) as [started buffer].
      simpl in Hstart. subst started. rewrite Hend, Hout, Hfile. reflexivity.
    + unfold second_pass_line.
      destruct (is_macro_definition_start (Some line) (Some (current_macro_name l))
                  sizeof_current_macro_name) as [started buffer].
      simpl in Hstart. subst started. rewrite Hend, Hout, Hfile. assumption.
    + unfold second_pass_line.
      destruct (is_macro_definition_start (Some line) (Some (current_macro_name l))
                  sizeof_current_macro_name) as [started buffer].
      simpl in Hstart. subst started. rewrite Hend, Hout, Hfile. simpl.
      unfold expand_line. rewrite Htable, is_macro_call_empty. reflexivity.
Qed.

(** Identity on text files of which no buffer is taken for the start or
    the end of a definition, when the [.am] file can be written. *)
Lemma two_pass_identity (file_name text : string) (e : env) :
  as_on_disk e = Some text ->
  Spec.is_text text ->
  Invariants.never_classified text = true ->
  am_writable e = true ->
  process_pre_assembly_for_file file_name e
  = Returns {| result := true; errors := []; am_after := Some text |}.
Proof.
  intros Hin Htext Hplain Hw. unfold process_pre_assembly_for_file.
  rewrite Hin, Hw.
  destruct (first_pass_plain file_name (lines_of text) entry
              (lines_bounded text) Hplain eq_refl) as (H1 & H2 & H3 & H4).
  fold (first_pass file_name text) in H1, H2, H3, H4.
  set (l1 := first_pass file_name text) in *.
  rewrite H3. simpl.
  destruct (second_pass_silent (lines_of text) (rewind l1 (Some EmptyString)))
    as (Hd & He & _ & _ & _).
  fold (second_pass text l1 (Some EmptyString)) in Hd, He.
  rewrite Hd, He. simpl. rewrite H3, H4. simpl.
  unfold second_pass.
  rewrite (second_pass_plain (lines_of text) (rewind l1 (Some EmptyString)) EmptyString);
    auto.
  simpl. unfold lines_of.
  change sizeof_line with (S (S MAX_LINE_LENGTH)).
  now rewrite read_lines_join.
Qed.

(** X19. [src/pre_assembler.c] reports nothing but a file that cannot be
    opened, a bad macro name or a redefinition, on any input: never a line
    that is too long, an unexpected or a missing [mcroend], or a nested
    definition. Where the call leaves defined behaviour, this is about
    what it has printed by then. *)
Lemma reported_kinds (file_name : string) (e : env) :
  Forall (fun kind => In kind [ERROR_FILE_OPEN_FAILED;
                               ERROR_MACRO_NAME_RESERVED_KEYWORD;
                               ERROR_MACRO_NAME_INVALID_FORMAT;
                               ERROR_LABEL_REDEFINITION])
    (map d_kind (reported (process_pre_assembly_for_file file_name e))).
Proof.
  unfold process_pre_assembly_for_file.
  destruct (as_on_disk e) as [text|];
    [|simpl; constructor; [simpl; tauto | constructor]].
  assert (Hfirst : Forall (fun kind => In kind [ERROR_FILE_OPEN_FAILED;
                                                ERROR_MACRO_NAME_RESERVED_KEYWORD;
                                                ERROR_MACRO_NAME_INVALID_FORMAT;
                                                ERROR_LABEL_REDEFINITION])
                     (kinds (diag (first_pass file_name text)))).
  { eapply Forall_impl;
      [|apply (first_pass_kinds file_name (lines_of text) entry (lines_bounded text));
        constructor].
    simpl. tauto. }
  destruct (negb (has_errors_in_file (first_pass file_name text))
            && negb (am_writable e)).
  - exact Hfirst.
  - cbv zeta.
    destruct (second_pass_silent (lines_of text)
                (rewind (first_pass file_name text)
                   (if has_errors_in_file (first_pass file_name text)
                    then None else Some EmptyString))) as (Hd & _).
    unfold second_pass. simpl reported. rewrite Hd. exact Hfirst.
Qed.

End PreAssemblerFacts.

(* ================================================================== *)
(** ** The diagnostics sink *)

Module SinkFacts.
Import ErrorHandler Invariants.

Lemma reports_trans (allowed : ErrorType -> Prop) (k1 k2 k3 : sink) :
  reports allowed k1 k2 -> reports allowed k2 k3 -> reports allowed k1 k3.
Proof.
  intros H12 H23. induction H23 as [|k' f n kind _ IH Hk]; [assumption|].
  now constructor.
Qed.

Lemma reports_one (allowed : ErrorType -> Prop) (k : sink) (f : string) (n : nat)
    (kind : ErrorType) :
  allowed kind -> reports allowed k (report_error f n kind k).
Proof. intros H. constructor; [constructor | assumption]. Qed.

Lemma reports_weaken (P Q : ErrorType -> Prop) (k k' : sink) :
  (forall kind, P kind -> Q kind) -> reports P k k' -> reports Q k k'.
Proof.
  intros HPQ H. induction H as [|k' f n kind _ IH Hk]; constructor; auto.
Qed.

Lemma reports_consistent (allowed : ErrorType -> Prop) (k k' : sink) :
  consistent k -> reports allowed k k' -> consistent k'.
Proof.
  intros Hk H. induction H as [|k' f n kind _ IH _]; [assumption|].
  unfold consistent, report_error; simpl. split; [intros _|reflexivity].
  now destruct (stderr k').
Qed.

(** Reports are appended: what was printed stays. *)
Lemma reports_extend (allowed : ErrorType -> Prop) (k k' : sink) :
  reports allowed k k' ->
  exists more,
    stderr k' = (stderr k ++ more)%list /\ Forall allowed (map d_kind more).
Proof.
  intros H. induction H as [|k' f n kind _ [more [IH Hall]] Hk].
  - exists []. now rewrite app_nil_r.
  - exists (more ++ [Diag f n kind])%list. simpl. rewrite IH, app_assoc.
    split; [reflexivity|]. rewrite map_app. apply Forall_app.
    split; [assumption | repeat constructor; assumption].
Qed.

Lemma reports_silent (allowed : ErrorType -> Prop) (k k' : sink) :
  reports allowed k k' -> stderr k' = [] -> k' = k.
Proof.
  intros H. destruct H as [|k' f n kind _ _]; [reflexivity|].
  simpl. intros E. now destruct (stderr k').
Qed.

Lemma reports_noisy (allowed : ErrorType -> Prop) (k k' : sink) :
  reports allowed k k' -> stderr k <> [] -> stderr k' <> [].
Proof.
  intros H Hk E. apply reports_extend in H as [more [H _]].
  rewrite E in H. symmetry in H. apply app_eq_nil in H as [H _]. contradiction.
Qed.

Lemma reports_kinds (allowed : ErrorType -> Prop) (k k' : sink) :
  reports allowed k k' ->
  Forall allowed (kinds k) -> Forall allowed (kinds k').
Proof.
  intros H Hk. apply reports_extend in H as [more [H Hall]].
  unfold kinds in *. rewrite H, map_app. apply Forall_app. auto.
Qed.

End SinkFacts.

(* ================================================================== *)
(** ** src/main.c: the single pass of the copy *)

Module PreAssemblerCopyFacts.
Import CLib Definitions ErrorHandler Utils Files PreAssemblerCopy.
Import Invariants SinkFacts CLibFacts.

(** *** What the classifiers can do to the state *)

Lemma end_cases (line : string) (s : state) :
  forall ended s',
    is_macro_definition_end line s = (ended, s') ->
    s' = s \/ (ended = false /\ s' = report_here ERROR_MACRO_DEFINITION_SYNTAX s).
Proof.
  unfold is_macro_definition_end. intros ended s'.
  destruct (strtok (strncpy line MAX_LINE_LENGTH) strtok_delims) as [[token rest]|];
    [|intros H; inversion H; auto].
  destruct (negb (streq token "mcroend")); [intros H; inversion H; auto|].
  destruct (strtok rest strtok_delims) as [[token' rest']|];
    [|intros H; inversion H; auto].
  destruct (Ascii.eqb (deref token') ";"%char); intros H; inversion H; auto.
Qed.

Lemma start_cases (line : string) (buffer_size : nat) (s : state) :
  forall started s',
    is_macro_definition_start line buffer_size s = (started, s') ->
    (s' = s /\ (started <> None -> g_in_macro_definition s = false))
    \/ (started = None
        /\ exists kind,
             s' = report_here kind s
             /\ (kind = ERROR_NESTED_MACRO_DEFINITION -> g_in_macro_definition s = true)).
Proof.
  unfold is_macro_definition_start. intros started s'.
  destruct (strtok (strncpy line MAX_LINE_LENGTH) strtok_delims) as [[keyword rest]|];
    [|intros H; inversion H; left; split; [reflexivity | congruence]].
  destruct (negb (streq keyword "mcro"));
    [intros H; inversion H; left; split; [reflexivity | congruence]|].
  destruct (strtok rest strtok_delims) as [[macro_name rest']|];
    [|intros H; inversion H; right; split; [reflexivity|];
      eexists; split; [reflexivity | discriminate]].
  destruct (strstr line macro_name) as [pos|];
    [|intros H; inversion H; right; split; [reflexivity|];
      eexists; split; [reflexivity | discriminate]].
  cbv zeta.
  repeat match goal with
         | |- context [if ?b then _ else _] => destruct b eqn:?
         end;
    intros H; inversion H; subst;
    try (right; split; [reflexivity|];
         eexists; split; [reflexivity | (discriminate || auto)]).
  left. split; [reflexivity | auto].
Qed.

Lemma called_cases (line : string) (s : state) :
  forall called s',
    called_macro_of line s = (called, s') ->
    s' = s \/ (called = None /\ s' = report_here ERROR_GENERIC_SYNTAX_ERROR s).
Proof.
  unfold called_macro_of. intros called s'.
  destruct (strtok (strncpy line MAX_LINE_LENGTH) strtok_delims) as [[token rest]|];
    [|intros H; inversion H; auto].
  destruct (find_macro_in_list (g_macros_list s) token);
    [|intros H; inversion H; auto].
  destruct (strtok rest strtok_delims) as [[extra rest']|];
    [|intros H; inversion H; auto].
  destruct (Ascii.eqb (deref extra) ";"%char); intros H; inversion H; auto.
Qed.

(** With an empty table nothing is a call. *)
Lemma called_none (line : string) (s : state) :
  g_macros_list s = [] -> called_macro_of line s = (None, s).
Proof.
  intros H. unfold called_macro_of. rewrite H.
  now destruct (strtok (strncpy line MAX_LINE_LENGTH) strtok_delims) as [[token rest]|].
Qed.

Lemma append_content_length (l : list Macro) :
  forall i line_text, List.length (append_content l i line_text) = List.length l.
Proof.
  induction l as [|m l IH]; intros [|i] line_text; simpl; auto.
Qed.

(** *** One iteration *)

Ltac tests :=
  repeat match goal with
         | |- context [if ?b then _ else _] => destruct b eqn:?
         | |- context [match ?x with Some _ => _ | None => _ end] => destruct x eqn:?
         end.

Ltac count_reports :=
  simpl;
  repeat first [ apply reports_none
               | apply reports_more ];
  try (unfold not_nested, any_kind; first [ exact I | discriminate ]).

Lemma write_grows (writable : bool) (file_name : string) (texts : list string)
    (s : state) :
  let s' := write_if_clean writable file_name texts s in
  reports not_nested (diag s) (diag s') /\ g_macros_list s' = g_macros_list s.
Proof. unfold write_if_clean. tests; split; try reflexivity; count_reports. Qed.

Lemma check_cases (file_name trimmed_line : string) (s : state) :
  let s1 := check_unexpected_end file_name trimmed_line s in
  s1 = s
  \/ s1 = report_here ERROR_MACRO_DEFINITION_SYNTAX s
  \/ s1 = report file_name (g_current_line_number s) ERROR_UNEXPECTED_MACRO_END s.
Proof.
  unfold check_unexpected_end. destruct (negb (g_in_macro_definition s)); [|auto].
  destruct (is_macro_definition_end trimmed_line s) as [ended s'] eqn:Hend.
  apply end_cases in Hend as [-> | [-> ->]]; [destruct ended|]; auto.
Qed.

(** Whatever [define_or_expand] reports, it is not a nested definition: the
    only [report_error(.., ERROR_NESTED_MACRO_DEFINITION)] is in
    [is_macro_definition_start], behind [if (g_in_macro_definition)], and
    that function is called only where the flag is down. *)
Lemma define_or_expand_grows (writable : bool) (file_name : string)
    (line_buffer trimmed_line : string) (s : state) :
  let s' := define_or_expand writable file_name line_buffer trimmed_line s in
  reports not_nested (diag s) (diag s')
  /\ List.length (g_macros_list s) <= List.length (g_macros_list s').
Proof.
  unfold define_or_expand.
  destruct (g_in_macro_definition s) eqn:Hdef.
  - destruct (is_macro_definition_end trimmed_line s) as [ended s1] eqn:Hend.
    apply end_cases in Hend as [-> | [-> ->]];
      unfold add_line_to_current_macro_content; tests;
      (split; [count_reports | simpl; rewrite ?append_content_length; lia]).
  - destruct (called_macro_of trimmed_line s) as [called s1] eqn:Hcall.
    assert (Hs1 : reports not_nested (diag s) (diag s1)
                  /\ g_macros_list s1 = g_macros_list s
                  /\ g_in_macro_definition s1 = false).
    { apply called_cases in Hcall as [-> | [-> ->]];
        (split; [count_reports | auto]). }
    destruct Hs1 as (Hr1 & Hl1 & Hd1).
    destruct called as [macro_to_expand|].
    + destruct (write_grows writable file_name (content macro_to_expand) s1)
        as [Hr Hl].
      split; [eapply reports_trans; eassumption | rewrite Hl, Hl1; lia].
    + destruct (is_macro_definition_start trimmed_line sizeof_temp_macro_name s1)
        as [started s2] eqn:Hstart.
      assert (Hs2 : reports not_nested (diag s1) (diag s2)
                    /\ g_macros_list s2 = g_macros_list s1).
      { apply start_cases in Hstart as [[-> _] | [-> [kind [-> Hk]]]];
          (split; [count_reports | auto]).
        intros E. apply Hk in E. congruence. }
      destruct Hs2 as (Hr2 & Hl2).
      destruct started as [temp_macro_name|].
      * simpl. split; [eapply reports_trans; eassumption|].
        unfold add_macro_to_list. rewrite length_app, Hl2, Hl1. simpl. lia.
      * destruct (write_grows writable file_name [line_buffer] s2) as [Hr Hl].
        split; [|rewrite Hl, Hl2, Hl1; lia].
        eapply reports_trans; [|exact Hr]. eapply reports_trans; eassumption.
Qed.

Lemma copy_or_dispatch_grows (writable : bool) (file_name : string)
    (line_buffer trimmed_line : string) (s : state) :
  let s' := copy_or_dispatch writable file_name line_buffer trimmed_line s in
  reports not_nested (diag s) (diag s')
  /\ List.length (g_macros_list s) <= List.length (g_macros_list s').
Proof.
  unfold copy_or_dispatch.
  destruct (negb (g_in_macro_definition s) && _).
  - destruct (write_grows writable file_name [line_buffer] s) as [Hr Hl].
    split; [assumption | rewrite Hl; lia].
  - cbv zeta. destruct (negb (g_in_macro_definition s));
      [apply (define_or_expand_grows _ _ _ _ (set_has_non_empty_lines s))
      |apply define_or_expand_grows].
Qed.

Lemma process_line_grows (writable : bool) (file_name : string) (s : state)
    (line_buffer : string) :
  let s' := process_line writable file_name s line_buffer in
  reports not_nested (diag s) (diag s')
  /\ List.length (g_macros_list s) <= List.length (g_macros_list s').
Proof.
  unfold process_line. destruct (returned s); [split; [constructor | lia]|].
  cbv zeta.
  set (s0 := set_line_number (S (g_current_line_number s)) s).
  change (diag s) with (diag s0).
  change (g_macros_list s) with (g_macros_list s0). clearbody s0.
  destruct (exceeds_limit line_buffer); [split; [count_reports | simpl; lia]|].
  set (s1 := check_unexpected_end file_name (trimmed_copy line_buffer) s0).
  destruct (copy_or_dispatch_grows writable file_name line_buffer
              (trimmed_copy line_buffer) s1) as [Hr Hl].
  assert (Hs1 : reports not_nested (diag s0) (diag s1)
                /\ g_macros_list s1 = g_macros_list s0).
  { destruct (check_cases file_name (trimmed_copy line_buffer) s0)
      as [H | [H | H]]; fold s1 in H; rewrite H; (split; [count_reports | auto]). }
  destruct Hs1 as [Hr1 Hl1].
  split; [eapply reports_trans; eassumption | rewrite <- Hl1; exact Hl].
Qed.

(** *** The whole loop *)

Lemma scan_grows (writable : bool) (file_name : string) (lines : list string) :
  forall s,
    let s' := fold_left (process_line writable file_name) lines s in
    reports not_nested (diag s) (diag s')
    /\ List.length (g_macros_list s) <= List.length (g_macros_list s').
Proof.
  induction lines as [|line lines IH]; intros s; simpl; [split; [constructor | lia]|].
  destruct (IH (process_line writable file_name s line)) as [Hr Hl].
  destruct (process_line_grows writable file_name s line) as [Hr' Hl'].
  split; [eapply reports_trans; eassumption | lia].
Qed.

Lemma final_checks_reports (file_name : string) (s : state) :
  reports not_nested (diag s) (diag (final_checks file_name s))
  /\ am_file (final_checks file_name s) = am_file s.
Proof.
  unfold final_checks. tests; split; try reflexivity; count_reports.
Qed.

Lemma quiet_consistent : consistent (reset_error_flag quiet).
Proof. unfold consistent; simpl. split; [discriminate | congruence]. Qed.

(** After the loop and the two checks the flag still tells whether
    something was printed, and none of it is a nested-definition error. *)
Lemma checked_scan (writable : bool) (file_name text : string) :
  let s := final_checks file_name (scan writable file_name text) in
  consistent (diag s) /\ ~ In ERROR_NESTED_MACRO_DEFINITION (kinds (diag s)).
Proof.
  destruct (scan_grows writable file_name (lines_of text) (entry file_name)) as [Hr _].
  fold (scan writable file_name text) in Hr.
  destruct (final_checks_reports file_name (scan writable file_name text)) as [Hr' _].
  pose proof (reports_trans _ _ _ _ Hr Hr') as H. simpl in H.
  split.
  - eapply reports_consistent; [apply quiet_consistent | exact H].
  - intros Hin. apply reports_kinds in H; [|constructor].
    rewrite Forall_forall in H. now apply (H _ Hin).
Qed.

(** The copy never reports a nested definition, whatever the input. *)
Lemma never_nested (file_name : string) (e : env) :
  ~ In ERROR_NESTED_MACRO_DEFINITION
      (map d_kind (errors (process_pre_assembly_for_file file_name e))).
Proof.
  unfold process_pre_assembly_for_file.
  destruct (as_on_disk e) as [text|]; [|simpl; intros [H | []]; discriminate].
  destruct (checked_scan (am_writable e) file_name text) as [_ Hnever].
  destruct (scan_grows (am_writable e) file_name (lines_of text) (entry file_name))
    as [Hr _].
  fold (scan (am_writable e) file_name text) in Hr.
  tests; simpl; try exact Hnever.
  intros Hin. apply reports_kinds in Hr; [|constructor].
  rewrite Forall_forall in Hr. now apply (Hr _ Hin).
Qed.



(** *** A [mcroend] line outside a definition *)

Lemma end_any_state (line : string) (s s' : state) :
  fst (is_macro_definition_end line s) = fst (is_macro_definition_end line s').
Proof.
  unfold is_macro_definition_end.
  destruct (strtok (strncpy line MAX_LINE_LENGTH) strtok_delims) as [[token rest]|];
    [|reflexivity].
  destruct (negb (streq token "mcroend")); [reflexivity|].
  destruct (strtok rest strtok_delims) as [[token' rest']|]; [|reflexivity].
  now destruct (Ascii.eqb (deref token') ";"%char).
Qed.

(** X25. While the loop of the copy runs, outside a definition, a buffer
    whose trimmed copy [is_macro_definition_end] accepts is reported
    exactly once: as a line that is too long when it fails the length
    test, which comes first, and as an unexpected end otherwise. Nothing
    is written for it, the list stays as it was and the scanner stays
    outside. *)
Lemma unexpected_end_step (writable : bool) (file_name : string) (s : state)
    (line_buffer : string) :
  returned s = false ->
  g_in_macro_definition s = false ->
  fst (is_macro_definition_end (trimmed_copy line_buffer) s) = true ->
  let s' := process_line writable file_name s line_buffer in
  diag s'
  = report_error file_name (S (g_current_line_number s))
      (if exceeds_limit line_buffer
       then ERROR_LINE_TOO_LONG else ERROR_UNEXPECTED_MACRO_END)
      (diag s)
  /\ am_file s' = am_file s
  /\ g_in_macro_definition s' = false
  /\ g_macros_list s' = g_macros_list s
  /\ returned s' = false.
Proof.
  intros Hret Hdef Hend. unfold process_line. rewrite Hret. cbv zeta.
  destruct (exceeds_limit line_buffer) eqn:Hlen; [simpl; auto|].
  set (s0 := set_line_number (S (g_current_line_number s)) s).
  rewrite (end_any_state _ s s0) in Hend.
  assert (Hdef0 : g_in_macro_definition s0 = false) by exact Hdef.
  unfold check_unexpected_end. rewrite Hdef0. simpl negb. cbv iota.
  unfold is_macro_definition_end in *.
  destruct (strtok (strncpy (trimmed_copy line_buffer) MAX_LINE_LENGTH) strtok_delims)
    as [[token rest]|] eqn:Htok; [|discriminate].
  destruct (negb (streq token "mcroend")) eqn:Hkw; [discriminate|].
  apply negb_false_iff, String.eqb_eq in Hkw. subst token.
  assert (Hextra : match strtok rest strtok_delims with
                   | Some (extra, _) => Ascii.eqb (deref extra) ";"%char = true
                   | None => True
                   end).
  { destruct (strtok rest strtok_delims) as [[extra rest']|]; [|exact I].
    now destruct (Ascii.eqb (deref extra) ";"%char). }
  assert (Hs : (let (ended, s') :=
                  match strtok rest strtok_delims with
                  | Some (token', _) =>
                      if Ascii.eqb (deref token') ";"%char then (true, s0)
                      else (false, report_here ERROR_MACRO_DEFINITION_SYNTAX s0)
                  | None => (true, s0)
                  end in
                if ended
                then report file_name (g_current_line_number s') ERROR_UNEXPECTED_MACRO_END s'
                else s')
               = report file_name (S (g_current_line_number s))
                   ERROR_UNEXPECTED_MACRO_END s0).
  { destruct (strtok rest strtok_delims) as [[extra rest']|]; [|reflexivity].
    now rewrite Hextra. }
  rewrite Hs. clear Hs Hend.
  unfold copy_or_dispatch.
  simpl g_in_macro_definition. rewrite Hdef. simpl negb.
  unfold define_or_expand, called_macro_of, is_macro_definition_start, write_if_clean.
  simpl g_in_macro_definition. rewrite Hdef, Htok.
  simpl g_macros_list.
  destruct (is_empty_or_comment_line (trimmed_copy line_buffer)); simpl andb; cbv iota.
  - simpl. auto.
  - destruct (find_macro_in_list (g_macros_list s) "mcroend") as [m|].
    + destruct (strtok rest strtok_delims) as [[extra rest']|];
        [rewrite Hextra|]; simpl; auto.
    + simpl. auto.
Qed.

(** *** Files without macros *)

Lemma write_clean (writable : bool) (file_name line_buffer : string) (s : state) :
  clean s ->
  let s' := write_if_clean writable file_name [line_buffer] s in
  dirty s' \/ (clean s' /\ am_file s' = Some (text_of (am_file s) ++ line_buffer)).
Proof.
  intros (Hret & Hdiag & Hlist & Hdef & Hok). unfold write_if_clean.
  rewrite Hdiag. simpl has_errors. cbv iota.
  destruct (am_file s) as [written|]; [|destruct writable].
  - right. unfold clean; simpl. auto 10.
  - right. unfold clean; simpl. auto 10.
  - left. left. simpl. now destruct (stderr (diag s)).
Qed.

Lemma dirty_step (writable : bool) (file_name : string) (s : state)
    (line_buffer : string) :
  dirty s -> dirty (process_line writable file_name s line_buffer).
Proof.
  destruct (process_line_grows writable file_name s line_buffer) as [Hr Hl].
  intros [H | H]; [left; eapply reports_noisy; eassumption | right].
  destruct (g_macros_list s); [contradiction|].
  destruct (g_macros_list _); [simpl in Hl; lia | discriminate].
Qed.

(** From a clean state an iteration either copies the line and stays
    clean, or reports or defines something. *)
Lemma clean_step (writable : bool) (file_name : string) (s : state)
    (line_buffer : string) :
  clean s ->
  let s' := process_line writable file_name s line_buffer in
  dirty s' \/ (clean s' /\ am_file s' = Some (text_of (am_file s) ++ line_buffer)).
Proof.
  intros Hclean. pose proof Hclean as (Hret & Hdiag & Hlist & Hdef & Hok).
  unfold process_line. rewrite Hret. cbv zeta.
  destruct (exceeds_limit line_buffer);
    [left; left; simpl; now destruct (stderr (diag s))|].
  set (s0 := set_line_number (S (g_current_line_number s)) s).
  assert (Hclean0 : clean s0) by exact Hclean.
  change (am_file s) with (am_file s0). clearbody s0. clear Hclean Hret Hdiag Hlist Hdef Hok.
  set (trimmed_line := trimmed_copy line_buffer).
  destruct (copy_or_dispatch_grows writable file_name line_buffer trimmed_line
              (check_unexpected_end file_name trimmed_line s0)) as [Hgrow _].
  destruct (check_cases file_name trimmed_line s0) as [H | [H | H]];
    rewrite H in *; clear H;
    try (left; left; eapply reports_noisy; [exact Hgrow|];
         simpl; now destruct (stderr (diag s0))).
  clear Hgrow. pose proof Hclean0 as (Hret & Hdiag & Hlist & Hdef & Hok).
  unfold copy_or_dispatch. rewrite Hdef. simpl negb. simpl andb.
  destruct (is_empty_or_comment_line trimmed_line); [now apply write_clean|].
  cbv zeta iota.
  set (s2 := set_has_non_empty_lines s0).
  assert (Hclean2 : clean s2) by exact Hclean0.
  change (am_file s0) with (am_file s2). clearbody s2.
  clear Hclean0 Hret Hdiag Hlist Hdef Hok.
  pose proof Hclean2 as (Hret & Hdiag & Hlist & Hdef & Hok).
  unfold define_or_expand. rewrite Hdef, (called_none _ _ Hlist).
  destruct (is_macro_definition_start trimmed_line sizeof_temp_macro_name s2)
    as [started s3] eqn:Hstart.
  apply start_cases in Hstart as [[-> _] | [-> [kind [-> _]]]].
  - destruct started as [temp_macro_name|]; [|now apply write_clean].
    left. right. simpl. unfold add_macro_to_list. now destruct (g_macros_list s2).
  - destruct (write_grows writable file_name [line_buffer] (report_here kind s2))
      as [Hr _].
    left. left. eapply reports_noisy; [exact Hr|].
    simpl. now destruct (stderr (diag s2)).
Qed.

Lemma clean_scan (writable : bool) (file_name : string) (lines : list string) :
  forall s,
    clean s ->
    let s' := fold_left (process_line writable file_name) lines s in
    dirty s'
    \/ (clean s'
        /\ match lines with
           | [] => s' = s
           | _ => am_file s' = Some (text_of (am_file s) ++ join lines)
           end).
Proof.
  induction lines as [|line lines IH]; intros s Hclean; [right; auto|].
  cbn [fold_left].
  destruct (clean_step writable file_name s line Hclean) as [Hdirty | [Hclean1 Hfile]].
  - left. clear IH. revert Hdirty.
    generalize (process_line writable file_name s line).
    induction lines as [|l ls IHl]; intros s1 Hd; [exact Hd|].
    cbn [fold_left]. apply IHl. now apply dirty_step.
  - destruct (IH _ Hclean1) as [Hdirty | [Hclean2 Hrest]]; [now left|].
    right. split; [assumption|].
    destruct lines as [|l ls].
    + rewrite Hrest, Hfile. unfold join; simpl. now rewrite append_empty_r.
    + rewrite Hrest, Hfile. simpl text_of.
      change (join (line :: l :: ls)) with (line ++ join (l :: ls)).
      now rewrite append_assoc.
Qed.

(** Identity on text files in which the copy finds nothing to report and
    no macro to define. *)
Lemma single_pass_identity (file_name text : string) (e : env) :
  as_on_disk e = Some text ->
  Spec.is_text text ->
  errors (process_pre_assembly_for_file file_name e) = [] ->
  g_macros_list (scan (am_writable e) file_name text) = [] ->
  process_pre_assembly_for_file file_name e
  = {| result := true; errors := []; am_after := Some text |}.
Proof.
  intros Hin Htext Herr Htable. unfold process_pre_assembly_for_file in *.
  rewrite Hin in *.
  set (s := scan (am_writable e) file_name text) in *.
  destruct (final_checks_reports file_name s) as [Hfinal Ham].
  assert (Hquiet : stderr (diag s) = []).
  { destruct (returned s); [exact Herr|].
    assert (E : stderr (diag (final_checks file_name s)) = [])
      by (destruct (_ || _); exact Herr).
    apply reports_extend in Hfinal as [more [Hmore _]]. rewrite E in Hmore.
    symmetry in Hmore. now apply app_eq_nil in Hmore. }
  assert (Hentry : clean (entry file_name)) by (unfold clean; simpl; auto).
  destruct (clean_scan (am_writable e) file_name (lines_of text) _ Hentry)
    as [[Hd | Hd] | [(Hret & Hdiag & _ & Hdef & Hok) Hlines]];
    fold (scan (am_writable e) file_name text) in *; fold s in Hd || idtac;
    [contradiction | contradiction |].
  fold s in Hret, Hdiag, Hdef, Hok, Hlines.
  rewrite Hret in *.
  assert (Hne : has_non_empty_lines s = true).
  { destruct (has_non_empty_lines s) eqn:E; [reflexivity|]. exfalso.
    unfold final_checks in Herr. rewrite Hdef, E in Herr. simpl in Herr.
    destruct (stderr (diag s)); discriminate. }
  assert (Hsame : final_checks file_name s = s)
    by (unfold final_checks; now rewrite Hdef, Hne).
  rewrite Hsame in *. rewrite Hdiag, Hok in *. simpl.
  destruct (lines_of text) as [|l ls] eqn:Hl.
  - subst s. unfold scan in Hne. rewrite Hl in Hne. discriminate.
  - rewrite Hlines. simpl text_of. rewrite <- Hl. unfold lines_of.
    change sizeof_line_buffer with (S (S MAX_LINE_LENGTH)).
    now rewrite read_lines_join.
Qed.

End PreAssemblerCopyFacts.

(* ================================================================== *)
(** ** Macro names *)

Module NameFacts.
Import CLib Definitions Utils PreAssembler Spec.

Lemma while_alphanumeric_every (s : string) :
  while_alphanumeric s = true <-> every_char is_alphanumeric s.
Proof.
  induction s as [|c s IH]; simpl; [tauto|].
  destruct (is_alphanumeric c); simpl; [tauto|].
  split; [discriminate | intros [H _]; discriminate].
Qed.

Lemma all_alphanumeric_every (s : string) :
  all_alphanumeric s = true <-> every_char is_alphanumeric s.
Proof.
  induction s as [|c s IH]; simpl; [tauto|].
  destruct (is_alphanumeric c); simpl; [tauto|].
  split; [discriminate | intros [H _]; discriminate].
Qed.

Lemma alpha_is_alphanumeric (c : ascii) :
  is_alpha c = true -> is_alphanumeric c = true.
Proof.
  unfold is_alphanumeric, isalnum, is_alpha. intros H. now rewrite H.
Qed.

Lemma alpha_not_underscore (c : ascii) :
  is_alpha c = true -> Ascii.eqb c "_"%char = false.
Proof.
  intros H. destruct (Ascii.eqb c "_"%char) eqn:E; [|reflexivity].
  apply Ascii.eqb_eq in E. subst c. discriminate.
Qed.

(** [is_valid_macro_name] accepts exactly the MacroNames over the keywords
    of [is_reserved_keyword]. *)
Lemma is_valid_macro_name_spec (s : string) :
  is_valid_macro_name s = true <-> MacroName is_reserved_keyword s.
Proof.
  unfold MacroName. destruct s as [|c rest]; [simpl; split; [discriminate | tauto]|].
  unfold is_valid_macro_name.
  change (strlen (String c rest)) with (S (String.length rest)).
  change (String.length (String c rest)) with (S (String.length rest)).
  destruct (MAX_LABEL_LENGTH <? S (String.length rest)) eqn:Hlen.
  { apply Nat.ltb_lt in Hlen. split; [discriminate | intros ([_ H] & _); lia]. }
  apply Nat.ltb_ge in Hlen.
  destruct (is_alpha c) eqn:Halpha.
  - rewrite (alpha_not_underscore c Halpha). simpl negb. cbv iota.
    cbn [while_alphanumeric]. rewrite (alpha_is_alphanumeric c Halpha).
    simpl negb. cbv iota.
    destruct (while_alphanumeric rest) eqn:Hrest; simpl negb; cbv iota.
    + apply while_alphanumeric_every in Hrest.
      destruct (is_reserved_keyword (String c rest)); split; intros H.
      * discriminate.
      * destruct H as (_ & _ & H). discriminate.
      * repeat split; auto; lia.
      * reflexivity.
    + split; [discriminate|]. intros (_ & [_ H] & _).
      apply while_alphanumeric_every in H. congruence.
  - destruct (Ascii.eqb c "_"%char); simpl;
      (split; [discriminate | intros (_ & [H _] & _); discriminate]).
Qed.

(** [is_legal_label] of [src/utils.c] accepts the same strings. *)
Lemma is_legal_label_spec (s : string) :
  is_legal_label s = true <-> MacroName is_reserved_keyword s.
Proof.
  unfold MacroName. destruct s as [|c rest]; [simpl; split; [discriminate | tauto]|].
  unfold is_legal_label.
  change (strlen (String c rest)) with (S (String.length rest)).
  change (String.length (String c rest)) with (S (String.length rest)).
  destruct (is_alpha c) eqn:Halpha; simpl negb; cbv iota;
    [|split; [discriminate | intros (_ & [H _] & _); discriminate]].
  destruct (all_alphanumeric rest) eqn:Hrest; simpl negb; cbv iota.
  - apply all_alphanumeric_every in Hrest.
    destruct (MAX_LABEL_LENGTH <? S (String.length rest)) eqn:Hlen.
    { apply Nat.ltb_lt in Hlen. split; [discriminate | intros ([_ H] & _); lia]. }
    apply Nat.ltb_ge in Hlen.
    destruct (is_reserved_keyword (String c rest)); split; intros H.
    + discriminate.
    + destruct H as (_ & _ & H). discriminate.
    + repeat split; auto; lia.
    + reflexivity.
  - split; [discriminate|]. intros (_ & [_ H] & _).
    apply all_alphanumeric_every in H. congruence.
Qed.

End NameFacts.

(* ================================================================== *)
(** * The claims *)

Import CLib Definitions ErrorHandler Utils Files Samples.

(** C1. Commit policy: after errors no [.am] file is left, without errors
    the complete expansion is the [.am] file. The first half holds in both
    drafts ([PreAssemblerFacts.commit_policy],
    [PreAssemblerCopyFacts.discard_on_error]) and the second in
    [src/pre_assembler.c]. The copy in [src/main.c] opens the file at its
    first write: for a file that only defines a macro it reports nothing,
    returns TRUE and creates no [.am] file, so that an [.am] file of an
    earlier run stays as the result; [src/pre_assembler.c] writes the
    empty expansion. *)
Theorem lazy_open_leaves_no_am_file :
  PreAssemblerCopy.process_pre_assembly_for_file "prog" (fresh define_only)
  = {| result := true; errors := []; am_after := None |}
  /\ PreAssemblerCopy.process_pre_assembly_for_file "prog" (stale define_only "old text")
     = {| result := true; errors := []; am_after := Some "old text" |}
  /\ PreAssembler.process_pre_assembly_for_file "prog" (stale define_only "old text")
     = Returns {| result := true; errors := []; am_after := Some EmptyString |}.
Proof. repeat split; vm_compute; reflexivity. Qed.

(** C2. The example of the specification, [mcro FOO / add r1,r2 / mcroend /
    FOO], expands to [add r1,r2]. It does in the copy in [src/main.c]. In
    [src/pre_assembler.c] the test [strncmp(trimmed_line, "mcro", 4)] of
    [extract_macro_name] also accepts the line [mcroend], as the start of
    a macro named [end]: the definition of FOO is never closed, the call
    is skipped as part of a body, and the output is empty. *)
Theorem spec_example_expansion :
  PreAssemblerCopy.process_pre_assembly_for_file "prog" (fresh define_and_call)
  = {| result := true; errors := []; am_after := Some ("add r1,r2" ++ nl) |}
  /\ PreAssembler.process_pre_assembly_for_file "prog" (fresh define_and_call)
     = Returns {| result := true; errors := []; am_after := Some EmptyString |}
  /\ PreAssembler.is_macro_definition_start (Some ("mcroend" ++ nl))
       (Some EmptyString) PreAssembler.sizeof_current_macro_name
     = (true, Some "end")
  /\ PreAssembler.g_macros (PreAssembler.first_pass "prog" define_and_call) = [].
Proof. repeat split; vm_compute; reflexivity. Qed.

(** C3. End of input inside a definition is reported as an unclosed
    definition and fails the pass. The copy in [src/main.c] does so, on
    every input ([PreAssemblerCopyFacts.unclosed_reported]).
    [src/pre_assembler.c] has no such check: on [mcro FOO / add r1,r2] it
    reports nothing, returns TRUE and leaves an (empty) [.am] file. *)
Theorem unclosed_definition_unreported :
  PreAssembler.process_pre_assembly_for_file "prog" (fresh unclosed)
  = Returns {| result := true; errors := []; am_after := Some EmptyString |}
  /\ PreAssembler.in_macro_definition (PreAssembler.first_pass "prog" unclosed) = true
  /\ PreAssemblerCopy.process_pre_assembly_for_file "prog" (fresh unclosed)
     = {| result := false;
          errors := [Diag "prog" 2 ERROR_UNCLOSED_MACRO_DEFINITION];
          am_after := None |}.
Proof. repeat split; vm_compute; reflexivity. Qed.

(** C4. A second [mcro] line for a name in the table is reported once as
    a redefinition and leaves the first entry alone. The first loop of
    [src/pre_assembler.c] does so ([PreAssemblerFacts.redefinition_reported]).
    The copy in [src/main.c] never looks the name up: the second
    definition of FOO is accepted without a report and appended to the
    list as a second entry named FOO. *)
Theorem redefinition_unreported :
  PreAssemblerCopy.process_pre_assembly_for_file "prog" (fresh defined_twice)
  = {| result := true; errors := []; am_after := Some ("add r1,r2" ++ nl) |}
  /\ PreAssemblerCopy.g_macros_list (PreAssemblerCopy.scan true "prog" defined_twice)
     = [ {| PreAssemblerCopy.name := "FOO";
            PreAssemblerCopy.content := ["add r1,r2" ++ nl] |};
         {| PreAssemblerCopy.name := "FOO";
            PreAssemblerCopy.content := ["sub r1,r2" ++ nl] |} ].
Proof. repeat split; vm_compute; reflexivity. Qed.

(** C5. A [mcro] line inside an open definition is reported as nested, is
    not captured, and the open definition goes on. Neither draft does
    that. The copy in [src/main.c] appends the line [mcro B] to the body
    of A and reports nothing: its nested-definition report is never
    reached ([PreAssemblerCopyFacts.never_nested]). [src/pre_assembler.c]
    reports nothing either and opens the second definition in place of
    the first: the name becomes B and the body collected so far is
    dropped. *)
Theorem nested_start_not_rejected :
  PreAssemblerCopy.process_pre_assembly_for_file "prog" (fresh nested)
  = {| result := true; errors := [];
       am_after := Some ("mcro B" ++ nl ++ "x" ++ nl) |}
  /\ PreAssemblerCopy.g_macros_list (PreAssemblerCopy.scan true "prog" nested)
     = [ {| PreAssemblerCopy.name := "A";
            PreAssemblerCopy.content := ["mcro B" ++ nl; "x" ++ nl] |} ]
  /\ (let l := PreAssembler.first_pass "prog" nested_open in
      PreAssembler.in_macro_definition l = true
      /\ PreAssembler.current_macro_name l = "B"
      /\ PreAssembler.macro_body l = EmptyString
      /\ stderr (PreAssembler.diag l) = []).
Proof. repeat split; vm_compute; reflexivity. Qed.

(** C6. Identity law: a valid input without macro definitions comes out
    as it went in. The copy in [src/main.c] does so
    ([PreAssemblerCopyFacts.single_pass_identity]). [src/pre_assembler.c]
    does so only where none of its buffers is taken for the start or the
    end of a definition by its own classifiers
    ([PreAssemblerFacts.two_pass_identity]), and they take more than the
    macro lines: the test [strncmp(trimmed_line, "mcro", 4)] of
    [extract_macro_name] takes the line [mcrox], whose first token is
    neither keyword, for the start of a macro named [x]. On [mcrox / stop]
    both lines are skipped as a definition, nothing is reported, the call
    returns TRUE and the [.am] file is empty. *)
Theorem identity_lost_on_keyword_prefix :
  Spec.is_text keyword_prefix
  /\ Spec.no_macro_lines keyword_prefix = true
  /\ PreAssembler.process_pre_assembly_for_file "prog" (fresh keyword_prefix)
     = Returns {| result := true; errors := []; am_after := Some EmptyString |}
  /\ PreAssembler.is_macro_definition_start (Some ("mcrox" ++ nl))
       (Some EmptyString) PreAssembler.sizeof_current_macro_name
     = (true, Some "x")
  /\ PreAssembler.g_macros (PreAssembler.first_pass "prog" keyword_prefix) = []
  /\ PreAssemblerCopy.process_pre_assembly_for_file "prog" (fresh keyword_prefix)
     = {| result := true; errors := []; am_after := Some keyword_prefix |}.
Proof. repeat split; vm_compute; reflexivity. Qed.

(** C7, as the code has it. [is_valid_macro_name] accepts a string exactly
    when it has 1 to 30 characters, starts with a letter, goes on with
    letters, digits and underscores, and is none of the keywords of
    [is_reserved_keyword]: the opcode, directive and register names. The
    words [mcro] and [mcroend] are not among these keywords, and both are
    accepted as macro names. *)
Theorem macro_name_validity :
  (forall s,
     PreAssembler.is_valid_macro_name s = true
     <-> Spec.MacroName is_reserved_keyword s)
  /\ is_reserved_keyword "mcro" = false
  /\ is_reserved_keyword "mcroend" = false
  /\ PreAssembler.is_valid_macro_name "mcro" = true
  /\ PreAssembler.is_valid_macro_name "mcroend" = true.
Proof.
  split; [exact NameFacts.is_valid_macro_name_spec|].
  repeat split; reflexivity.
Qed.

(** C7 as stated fails at [mcro]: the validator accepts it, and it is not
    a MacroName once the two directives count as reserved. *)
Lemma macro_directives_accepted :
  ~ (PreAssembler.is_valid_macro_name "mcro" = true
     <-> Spec.MacroName Spec.reserved_with_directives "mcro").
Proof.
  intros [H _]. destruct (H eq_refl) as (_ & _ & Hreserved). discriminate.
Qed.

(** C8. A [mcroend] line outside a definition is reported as unexpected,
    is not written, and leaves the scanner outside. The copy in
    [src/main.c] does so ([PreAssemblerCopyFacts.unexpected_end_step]).
    [src/pre_assembler.c] reports nothing for it: the line is taken for
    the start of a macro named [end] (see C2), the pass returns TRUE and
    keeps the [.am] file, and the scanner is left inside a definition. *)
Theorem unexpected_end_unreported :
  PreAssembler.process_pre_assembly_for_file "prog" (fresh stray_end)
  = Returns {| result := true; errors := []; am_after := Some ("stop" ++ nl) |}
  /\ PreAssembler.in_macro_definition (PreAssembler.first_pass "prog" stray_end) = true
  /\ PreAssemblerCopy.process_pre_assembly_for_file "prog" (fresh stray_end)
     = {| result := false;
          errors := [Diag "prog" 2 ERROR_UNEXPECTED_MACRO_END];
          am_after := None |}.
Proof. repeat split; vm_compute; reflexivity. Qed.

(** C9. A line of more than 80 characters is reported as too long and is
    neither classified nor copied. [src/pre_assembler.c] never reports it
    ([PreAssemblerFacts.reported_kinds]): [fgets] hands the
    line over in pieces of at most 81 bytes, and all of them are copied.
    The copy in [src/main.c] reports the first piece and then treats the
    rest of the line as the next line: inside a definition the last four
    characters of an 85-character line become a body line of the macro. *)
Theorem long_line_not_excluded :
  PreAssembler.process_pre_assembly_for_file "prog" (fresh long_line)
  = Returns {| result := true; errors := []; am_after := Some long_line |}
  /\ errors (PreAssemblerCopy.process_pre_assembly_for_file "prog" (fresh long_body_line))
     = [Diag "prog" 2 ERROR_LINE_TOO_LONG]
  /\ PreAssemblerCopy.g_macros_list (PreAssemblerCopy.scan true "prog" long_body_line)
     = [ {| PreAssemblerCopy.name := "M";
            PreAssemblerCopy.content := ["xxxx" ++ nl] |} ].
Proof. repeat split; vm_compute; reflexivity. Qed.

(** C10. The classifiers of [src/pre_assembler.c] answer FALSE for NULL
    arguments, whatever the buffer size, and leave the name buffer as it
    was. They reach neither the error handler nor the macro table: in the
    embedding they take and return no state. *)
Theorem null_arguments_rejected :
  (forall buffer_size macro_name_buffer,
     PreAssembler.is_macro_definition_start None macro_name_buffer buffer_size
     = (false, macro_name_buffer))
  /\ (forall buffer_size line,
        PreAssembler.is_macro_definition_start line None buffer_size = (false, None))
  /\ PreAssembler.is_macro_definition_end None = false.
Proof.
  repeat split.
  intros buffer_size [line|]; reflexivity.
Qed.

(* ================================================================== *)
(** * Further properties *)

(** ** src/utils.c: whitespace *)

Module WhitespaceFacts.
Import CLib Definitions Utils UtilsRest Words Spec CLibFacts.

Lemma skip_split (s : string) : s = leading_whitespace s ++ skip_whitespace s.
Proof.
  induction s as [|c s IH]; simpl; [reflexivity|].
  destruct (is_whitespace c); simpl; [now rewrite <- IH | reflexivity].
Qed.

Lemma leading_all (s : string) : all_whitespace (leading_whitespace s).
Proof.
  induction s as [|c s IH]; simpl; [exact I|].
  destruct (is_whitespace c) eqn:E; simpl; [split; assumption | exact I].
Qed.

Lemma skip_cases (s : string) :
  skip_whitespace s = EmptyString
  \/ exists c rest, skip_whitespace s = String c rest /\ is_whitespace c = false.
Proof.
  induction s as [|c s IH]; simpl; [now left|].
  destruct (is_whitespace c) eqn:E; [exact IH | right; eauto].
Qed.

Lemma skip_all (lead : string) :
  all_whitespace lead -> forall s, skip_whitespace (lead ++ s) = skip_whitespace s.
Proof.
  induction lead as [|c lead IH]; simpl; [reflexivity|].
  intros [Hc Hlead] s. rewrite Hc. now apply IH.
Qed.

Lemma drop_split (s : string) :
  exists tail, s = drop_trailing_whitespace s ++ tail /\ all_whitespace tail.
Proof.
  induction s as [|c s [tail [IH Htail]]]; simpl; [exists EmptyString; split; [reflexivity | exact I]|].
  destruct (drop_trailing_whitespace s) as [|k kept] eqn:E.
  - simpl in IH. subst tail. destruct (is_whitespace c) eqn:Ec.
    + exists (String c s). split; [reflexivity | split; assumption].
    + exists s. split; [reflexivity | assumption].
  - exists tail. split; [|assumption]. simpl. simpl in IH. now rewrite <- IH.
Qed.

Lemma drop_last (s : string) :
  match last_char (drop_trailing_whitespace s) with
  | Some c => is_whitespace c = false
  | None => drop_trailing_whitespace s = EmptyString
  end.
Proof.
  induction s as [|c s IH]; simpl; [reflexivity|].
  destruct (drop_trailing_whitespace s) as [|k kept] eqn:E.
  - destruct (is_whitespace c) eqn:Ec; simpl; [reflexivity | assumption].
  - change (last_char (String c (String k kept))) with (last_char (String k kept)).
    destruct (last_char (String k kept)); [assumption | discriminate].
Qed.


Lemma c_str_no_nul (buffer : string) :
  every_char (fun c => negb (Ascii.eqb c NUL)) (c_str buffer).
Proof.
  induction buffer as [|c b IH]; simpl; [exact I|].
  destruct (Ascii.eqb c NUL) eqn:E; simpl; [exact I|]. rewrite E. auto.
Qed.

Lemma every_char_append (p : ascii -> bool) (a b : string) :
  every_char p (a ++ b) -> every_char p a /\ every_char p b.
Proof.
  induction a as [|c a IH]; simpl; [auto|]. intros [Hc H].
  destruct (IH H). auto.
Qed.

(** The two results of [trim_whitespace]: nothing is left, and the buffer
    is as before; or the text starts at a character that is not
    whitespace, and the buffer is cut behind the last such character. *)
Lemma trim_cases (s : string) :
  (skip_whitespace s = EmptyString
   /\ trim_whitespace s = EmptyString
   /\ trim_whitespace_in_place s = s)
  \/ (exists c rest,
        skip_whitespace s = String c rest
        /\ is_whitespace c = false
        /\ trim_whitespace s = String c (drop_trailing_whitespace rest)
        /\ trim_whitespace_in_place s
           = leading_whitespace s ++ String c (drop_trailing_whitespace rest)).
Proof.
  unfold trim_whitespace, trim_whitespace_in_place, trim_whitespace_buf.
  destruct s as [|c0 s0]; [left; auto|].
  destruct (skip_cases (String c0 s0)) as [E | [c [rest [E Hc]]]]; rewrite E.
  - left. auto.
  - right. exists c, rest. simpl. auto.
Qed.

End WhitespaceFacts.

Import CLib Definitions Utils UtilsRest Words.

(** X1. [trim_whitespace] returns the text between the leading and the
    trailing whitespace: what it returns neither starts nor ends with
    whitespace, and the argument is that text with whitespace before and
    after it. *)
Theorem trim_whitespace_trims (s : string) :
  trimmed (trim_whitespace s)
  /\ exists lead tail,
       s = lead ++ trim_whitespace s ++ tail
       /\ all_whitespace lead /\ all_whitespace tail.
Proof.
  destruct (WhitespaceFacts.trim_cases s)
    as [(Hskip & Htrim & _) | (c & rest & Hskip & Hc & Htrim & _)]; rewrite Htrim.
  - split; [reflexivity|]. exists s, EmptyString.
    split; [now rewrite CLibFacts.append_empty_r|].
    split; [|exact I].
    rewrite (WhitespaceFacts.skip_split s), Hskip, CLibFacts.append_empty_r.
    apply WhitespaceFacts.leading_all.
  - split.
    + unfold trimmed. simpl first_char.
      pose proof (WhitespaceFacts.drop_last rest) as Hlast.
      destruct (drop_trailing_whitespace rest) as [|k kept] eqn:E.
      * simpl. auto.
      * change (last_char (String c (String k kept))) with (last_char (String k kept)).
        destruct (last_char (String k kept)); [auto | discriminate].
    + destruct (WhitespaceFacts.drop_split rest) as [tail [Hrest Htail]].
      exists (leading_whitespace s), tail.
      split; [|split; [apply WhitespaceFacts.leading_all | assumption]].
      rewrite (WhitespaceFacts.skip_split s) at 1. rewrite Hskip. simpl.
      now rewrite <- Hrest.
Qed.


(** X3. A line is empty or a comment exactly when trimming leaves nothing or
    it is a comment line; the test gives the same answer on the line, on
    the trimmed string and on the buffer trimmed in place. The line is the
    C string of any buffer. *)
Theorem empty_or_comment_line_trimmed (buffer : string) :
  let s := c_str buffer in
  is_empty_or_comment_line s
  = String.eqb (trim_whitespace s) EmptyString || is_comment_line (Some s)
  /\ is_empty_or_comment_line (trim_whitespace s) = is_empty_or_comment_line s
  /\ is_empty_or_comment_line (trim_whitespace_in_place s) = is_empty_or_comment_line s.
Proof.
  intros s. unfold is_empty_or_comment_line, is_comment_line.
  destruct (WhitespaceFacts.trim_cases s)
    as [(Hskip & Htrim & Hbuf) | (c & rest & Hskip & Hc & Htrim & Hbuf)];
    rewrite Htrim, Hbuf, ?Hskip.
  - repeat split; reflexivity.
  - rewrite WhitespaceFacts.skip_all by apply WhitespaceFacts.leading_all.
    simpl skip_whitespace. rewrite Hc. unfold deref, char_at. simpl.
    assert (Hnul : Ascii.eqb c NUL = false).
    { pose proof (WhitespaceFacts.c_str_no_nul buffer) as Hall. fold s in Hall.
      rewrite (WhitespaceFacts.skip_split s), Hskip in Hall.
      apply WhitespaceFacts.every_char_append in Hall as [_ [Hall _]].
      now apply negb_true_iff in Hall. }
    rewrite Hnul. repeat split; reflexivity.
Qed.

(* ================================================================== *)
(** ** src/utils.c: base 4, opcodes and registers *)

Module LookupFacts.
Import CLib Definitions Utils UtilsRest Words.

(** The mask keeps the value modulo 1024. *)
Lemma low_ten_bits (v : Z) :
  Z.land (to_unsigned_int v) 1023 = (v mod 1024)%Z.
Proof.
  unfold to_unsigned_int. change 1023%Z with (Z.ones 10).
  rewrite Z.land_ones by lia. change (2 ^ 10)%Z with 1024%Z.
  apply Z.mod_mod_divide. exists (2 ^ 22)%Z. reflexivity.
Qed.

(** All 1024 values of ten bits, checked by evaluation. *)
Lemma base4_table :
  forallb
    (fun n =>
       let t := Z.of_nat n in
       (String.length (base4_loop 5 t EmptyString) =? 5)
       && match base4_value (base4_loop 5 t EmptyString) with
          | Some value => Z.eqb value t
          | None => false
          end)
    (seq 0 1024) = true.
Proof. vm_compute. reflexivity. Qed.

Lemma base4_ten_bits (t : Z) :
  (0 <= t < 1024)%Z ->
  String.length (base4_loop 5 t EmptyString) = 5
  /\ base4_value (base4_loop 5 t EmptyString) = Some t.
Proof.
  intros Ht. pose proof base4_table as H. rewrite forallb_forall in H.
  specialize (H (Z.to_nat t)). rewrite Z2Nat.id in H by lia.
  assert (Hin : In (Z.to_nat t) (seq 0 1024)) by (apply in_seq; lia).
  apply H in Hin. cbv zeta in Hin. apply andb_true_iff in Hin as [Hlen Hval].
  apply Nat.eqb_eq in Hlen. split; [assumption|].
  destruct (base4_value (base4_loop 5 t EmptyString)); [|discriminate].
  apply Z.eqb_eq in Hval. now subst.
Qed.

Lemma first_match_found (name : string) (names : list string) :
  forall i j,
    first_match name names i = Some j ->
    i <= j /\ nth_error names (j - i) = Some name.
Proof.
  induction names as [|candidate names IH]; intros i j; simpl; [discriminate|].
  unfold streq. destruct (String.eqb name candidate) eqn:E.
  - intros H. inversion H; subst. apply String.eqb_eq in E. subst.
    rewrite Nat.sub_diag. auto.
  - intros H. apply IH in H as [Hle Hnth]. split; [lia|].
    replace (j - i) with (S (j - S i)) by lia. exact Hnth.
Qed.

Lemma first_match_existsb (name : string) (names : list string) :
  forall i,
    existsb (streq name) names
    = match first_match name names i with Some _ => true | None => false end.
Proof.
  induction names as [|candidate names IH]; intros i; simpl; [reflexivity|].
  destruct (streq name candidate); [reflexivity | apply IH].
Qed.

Lemma existsb_streq_in (name : string) (names : list string) :
  existsb (streq name) names = true <-> In name names.
Proof.
  rewrite existsb_exists. unfold streq. split.
  - intros [x [Hin E]]. apply String.eqb_eq in E. now subst.
  - intros Hin. exists name. split; [assumption | apply String.eqb_refl].
Qed.

(** [get_register_number] is at least 0 exactly on the register names. *)
Lemma register_test (s : string) :
  (0 <=? get_register_number (Some s))%Z = existsb (streq s) register_names.
Proof.
  destruct (existsb (streq s) register_names) eqn:E.
  - apply existsb_streq_in in E. simpl in E.
    repeat (destruct E as [E | E]; [subst s; reflexivity|]). contradiction.
  - unfold get_register_number.
    destruct s as [|c0 [|c1 [|c2 rest]]]; try reflexivity.
    unfold strlen, char_at. simpl String.length. simpl String.get.
    change (2 =? 2) with true. simpl negb. simpl orb.
    destruct (Ascii.eqb c0 "r"%char) eqn:Er; [|reflexivity].
    apply Ascii.eqb_eq in Er. subst c0. simpl negb. cbv iota.
    destruct ((nat_of_ascii "0"%char <=? nat_of_ascii c1)
              && (nat_of_ascii c1 <=? nat_of_ascii "7"%char)) eqn:Ed;
      [|reflexivity].
    exfalso. revert E Ed.
    destruct c1 as [[] [] [] [] [] [] [] []]; vm_compute; congruence.
Qed.

End LookupFacts.

(** X4. [convert_decimal_to_unique_base4] always writes five characters, all
    of them among [a], [b], [c], [d], and read as base-4 digits they are
    the value modulo 1024, the low ten bits of its two's complement. *)
Theorem base4_round_trip (decimal_value : Z) :
  String.length (convert_decimal_to_unique_base4 decimal_value) = 5
  /\ base4_value (convert_decimal_to_unique_base4 decimal_value)
     = Some (decimal_value mod 1024)%Z.
Proof.
  unfold convert_decimal_to_unique_base4. cbv zeta.
  rewrite LookupFacts.low_ten_bits.
  apply LookupFacts.base4_ten_bits. apply Z.mod_pos_bound. lia.
Qed.

(** X5. Two integers get the same base-4 string exactly when they agree modulo
    1024: a negative number is written like itself plus 1024. *)
Theorem base4_same_string (v w : Z) :
  convert_decimal_to_unique_base4 v = convert_decimal_to_unique_base4 w
  <-> (v mod 1024 = w mod 1024)%Z.
Proof.
  split.
  - intros H.
    assert (Hv : base4_value (convert_decimal_to_unique_base4 v) = Some (v mod 1024)%Z).
    { unfold convert_decimal_to_unique_base4. cbv zeta.
      rewrite LookupFacts.low_ten_bits.
      apply LookupFacts.base4_ten_bits. apply Z.mod_pos_bound. lia. }
    assert (Hw : base4_value (convert_decimal_to_unique_base4 w) = Some (w mod 1024)%Z).
    { unfold convert_decimal_to_unique_base4. cbv zeta.
      rewrite LookupFacts.low_ten_bits.
      apply LookupFacts.base4_ten_bits. apply Z.mod_pos_bound. lia. }
    rewrite H in Hv. congruence.
  - intros H. unfold convert_decimal_to_unique_base4. cbv zeta.
    now rewrite !LookupFacts.low_ten_bits, H.
Qed.

(** X6. [get_opcode_value] answers TRUE exactly for the sixteen opcode names,
    with the name's position in [opcode_names] (0 to 15) as the value; on
    FALSE the integer behind [opcode_val] is left as it was. *)
Theorem opcode_lookup (op_name : string) (opcode_val : Z) :
  match get_opcode_value op_name opcode_val with
  | (true, value) =>
      (0 <= value < 16)%Z
      /\ nth_error opcode_names (Z.to_nat value) = Some op_name
  | (false, value) => value = opcode_val /\ ~ In op_name opcode_names
  end.
Proof.
  unfold get_opcode_value.
  destruct (first_match op_name opcode_names 0) as [i|] eqn:E.
  - apply LookupFacts.first_match_found in E as [_ Hnth].
    rewrite Nat.sub_0_r in Hnth. rewrite Nat2Z.id. split; [|assumption].
    assert (i < List.length opcode_names)
      by (apply nth_error_Some; congruence).
    simpl in H. lia.
  - split; [reflexivity|]. intros Hin.
    apply LookupFacts.existsb_streq_in in Hin.
    rewrite (LookupFacts.first_match_existsb _ _ 0), E in Hin. discriminate.
Qed.

(** X7. [get_register_number] answers -1 for NULL and for every string that is
    not one of [r0] .. [r7], and for those the position of the name in
    [register_names]. *)
Theorem register_lookup (s : string) :
  get_register_number None = (-1)%Z
  /\ ((get_register_number (Some s) = (-1)%Z /\ ~ In s register_names)
      \/ ((0 <= get_register_number (Some s) <= 7)%Z
          /\ nth_error register_names (Z.to_nat (get_register_number (Some s)))
             = Some s)).
Proof.
  split; [reflexivity|].
  pose proof (LookupFacts.register_test s) as Htest.
  destruct (existsb (streq s) register_names) eqn:E.
  - right. apply LookupFacts.existsb_streq_in in E. simpl in E.
    repeat (destruct E as [E | E]; [subst s; vm_compute; intuition congruence|]).
    contradiction.
  - left. split.
    + apply Z.leb_gt in Htest. unfold get_register_number in *.
      destruct (negb _ || negb _); [reflexivity|]. cbv zeta in *.
      destruct (_ && _) eqn:Ed; [|reflexivity].
      apply andb_true_iff in Ed as [Hlow _]. apply Nat.leb_le in Hlow. lia.
    + intros Hin. apply LookupFacts.existsb_streq_in in Hin. congruence.
Qed.

(** X8. A string is a reserved keyword exactly when [get_opcode_value] knows
    it, or it is a directive name, or [get_register_number] knows it. *)
Theorem reserved_by_lookup (s : string) (opcode_val : Z) :
  is_reserved_keyword s
  = fst (get_opcode_value s opcode_val)
    || existsb (streq s) directive_names
    || (0 <=? get_register_number (Some s))%Z.
Proof.
  rewrite LookupFacts.register_test. unfold is_reserved_keyword, get_opcode_value.
  rewrite (LookupFacts.first_match_existsb s opcode_names 0).
  destruct (first_match s opcode_names 0);
    destruct (existsb (streq s) directive_names);
    destruct (existsb (streq s) register_names); reflexivity.
Qed.

(* ================================================================== *)
(** ** src/error_handler.c *)

Import ErrorHandler Files.

(** X10. After [reset_error_flag], [has_errors] tells whether [report_error]
    has been called since, whatever the kinds reported; what was printed
    before stays, and every call appends one line. *)
Theorem error_flag_after_reset (calls : list diagnostic) (k : sink) :
  let k' := report_all calls (reset_error_flag k) in
  has_errors k' = negb (is_nil calls)
  /\ stderr k' = (stderr k ++ calls)%list.
Proof.
  cbv zeta.
  assert (H : forall k0,
             has_errors (report_all calls k0)
             = (if is_nil calls then has_errors k0 else true)
             /\ stderr (report_all calls k0) = (stderr k0 ++ calls)%list).
  { unfold report_all. induction calls as [|[f n kind] calls IH]; intros k0; simpl.
    - now rewrite app_nil_r.
    - destruct (IH (report_error f n kind k0)) as [Hflag Hlog].
      rewrite Hflag, Hlog. simpl. rewrite <- app_assoc. simpl.
      split; [now destruct calls | reflexivity]. }
  destruct (H (reset_error_flag k)) as [Hflag Hlog].
  rewrite Hflag, Hlog. split; [now destruct calls | reflexivity].
Qed.

(* ================================================================== *)
(** ** The macro tables *)

Module TableFacts.
Import CLib Definitions.

Lemma strncpy_length (s : string) : forall n, strlen (strncpy s n) <= n.
Proof.
  unfold strlen. induction s as [|c s IH]; intros [|n]; simpl; try lia.
  specialize (IH n). lia.
Qed.

Lemma strncpy_all (s : string) : forall n, strlen s <= n -> strncpy s n = s.
Proof.
  unfold strlen. induction s as [|c s IH]; intros [|n] H; simpl in *;
    try reflexivity; try lia.
  rewrite IH; [reflexivity | lia].
Qed.

Lemma append_content_names (l : list PreAssemblerCopy.Macro) :
  forall i line_text,
    map PreAssemblerCopy.name (PreAssemblerCopy.append_content l i line_text)
    = map PreAssemblerCopy.name l.
Proof.
  induction l as [|m l IH]; intros [|i] line_text; simpl; try reflexivity.
  now rewrite IH.
Qed.

End TableFacts.

(** X11. Lookup after insertion in [src/pre_assembler.c]: the first entry of a
    name wins, so [find_macro] answers as before for every name it knew;
    a name it did not know is found afterwards exactly when it equals the
    first [MAX_LABEL_LENGTH] characters of the added name, with the first
    [body_length] characters of the body. *)
Theorem find_macro_after_add (g : list PreAssembler.Macro) (name body : string)
    (body_length : nat) (wanted : string) :
  PreAssembler.find_macro (PreAssembler.add_macro g name body body_length) wanted
  = match PreAssembler.find_macro g wanted with
    | Some m => Some m
    | None =>
        if streq (strncpy name MAX_LABEL_LENGTH) wanted
        then Some {| PreAssembler.name := strncpy name MAX_LABEL_LENGTH;
                     PreAssembler.body := strncpy body body_length;
                     PreAssembler.body_length := body_length |}
        else None
    end.
Proof.
  unfold PreAssembler.add_macro.
  induction g as [|m g IH]; simpl; [reflexivity|].
  destruct (streq (PreAssembler.name m) wanted); [reflexivity | exact IH].
Qed.

(** X12. The same for the list of the copy in [src/main.c], and appending a
    body line changes no name: every lookup finds an entry of the same
    name as before, or none as before. *)
Theorem find_macro_in_list_after_add (l : list PreAssemblerCopy.Macro)
    (macro_name wanted : string) :
  PreAssemblerCopy.find_macro_in_list
    (PreAssemblerCopy.add_macro_to_list l
       (PreAssemblerCopy.create_macro_list_node macro_name)) wanted
  = match PreAssemblerCopy.find_macro_in_list l wanted with
    | Some m => Some m
    | None =>
        if streq (strncpy macro_name MAX_LABEL_LENGTH) wanted
        then Some (PreAssemblerCopy.create_macro_list_node macro_name)
        else None
    end
  /\ forall i line_text,
       option_map PreAssemblerCopy.name
         (PreAssemblerCopy.find_macro_in_list
            (PreAssemblerCopy.append_content l i line_text) wanted)
       = option_map PreAssemblerCopy.name
           (PreAssemblerCopy.find_macro_in_list l wanted).
Proof.
  split.
  - unfold PreAssemblerCopy.add_macro_to_list.
    induction l as [|m l IH]; simpl; [reflexivity|].
    destruct (streq (PreAssemblerCopy.name m) wanted); [reflexivity | exact IH].
  - induction l as [|m l IH]; intros [|i] line_text; simpl; try reflexivity.
    + now destruct (streq (PreAssemblerCopy.name m) wanted).
    + destruct (streq (PreAssemblerCopy.name m) wanted); [reflexivity | apply IH].
Qed.

(** [append_content] extends the content of node [i] by one line at its
    end and leaves every other node as it was. *)
Lemma append_content_at (l : list PreAssemblerCopy.Macro) (i j : nat)
    (line_text : string) :
  nth_error (PreAssemblerCopy.append_content l i line_text) j
  = if j =? i
    then option_map
           (fun m => {| PreAssemblerCopy.name := PreAssemblerCopy.name m;
                        PreAssemblerCopy.content :=
                          (PreAssemblerCopy.content m ++ [line_text])%list |})
           (nth_error l j)
    else nth_error l j.
Proof.
  revert i j. induction l as [|m l IH]; intros i j.
  - destruct i, j; simpl; try reflexivity; now destruct (_ =? _).
  - destruct i, j; simpl; try reflexivity. apply IH.
Qed.

(** X13. [add_line_to_current_macro_content] appends the line at the end of the
    content of the macro that [g_current_macro] points to, leaves every
    other macro as it was and reports nothing; when the pointer is NULL it
    changes no macro, reports an internal error at the current line and
    answers FALSE. *)
Theorem line_added_to_current_macro (line_text : string)
    (s : PreAssemblerCopy.state) (j : nat) :
  let (ok, s') := PreAssemblerCopy.add_line_to_current_macro_content line_text s in
  match PreAssemblerCopy.g_current_macro s with
  | Some i =>
      ok = true
      /\ PreAssemblerCopy.diag s' = PreAssemblerCopy.diag s
      /\ nth_error (PreAssemblerCopy.g_macros_list s') j
         = if j =? i
           then option_map
                  (fun m =>
                     {| PreAssemblerCopy.name := PreAssemblerCopy.name m;
                        PreAssemblerCopy.content :=
                          (PreAssemblerCopy.content m ++ [line_text])%list |})
                  (nth_error (PreAssemblerCopy.g_macros_list s) j)
           else nth_error (PreAssemblerCopy.g_macros_list s) j
  | None =>
      ok = false
      /\ PreAssemblerCopy.g_macros_list s' = PreAssemblerCopy.g_macros_list s
      /\ stderr (PreAssemblerCopy.diag s')
         = (stderr (PreAssemblerCopy.diag s)
            ++ [Diag (PreAssemblerCopy.s_current_file_name_for_errors s)
                  (PreAssemblerCopy.g_current_line_number s)
                  ERROR_INTERNAL_ERROR])%list
  end.
Proof.
  unfold PreAssemblerCopy.add_line_to_current_macro_content.
  destruct (PreAssemblerCopy.g_current_macro s) as [i|]; simpl.
  - repeat split. apply append_content_at.
  - repeat split.
Qed.

(** X9. The two validators agree: [is_legal_label] of [src/utils.c] and
    [is_valid_macro_name] of [src/pre_assembler.c] accept the same
    strings. *)
Theorem validators_agree (s : string) :
  is_legal_label s = PreAssembler.is_valid_macro_name s.
Proof.
  pose proof (NameFacts.is_legal_label_spec s) as Hl.
  pose proof (NameFacts.is_valid_macro_name_spec s) as Hv.
  destruct (is_legal_label s), (PreAssembler.is_valid_macro_name s);
    try reflexivity.
  - symmetry. apply Hv, Hl. reflexivity.
  - apply Hl, Hv. reflexivity.
Qed.

(* ================================================================== *)
(** ** src/pre_assembler.c: further properties *)

Module TwoPassFacts.
Import CLib Definitions PreAssembler PreAssemblerFacts.

Lemma first_pass_line_table (file_name : string) (l : locals) (line : string) :
  g_macros (first_pass_line file_name l line) = g_macros l
  \/ exists name',
       0 < strlen (macro_body l)
       /\ g_macros (first_pass_line file_name l line)
          = add_macro (g_macros l) name' (macro_body l) (strlen (macro_body l)).
Proof.
  unfold first_pass_line, macro_body_size; cbv zeta. branches; simpl; auto.
  right. eexists. split; [|reflexivity].
  match goal with H : (0 <? _) = true |- _ => now apply Nat.ltb_lt in H end.
Qed.

(** A string without whitespace is one token. *)
Lemma scan_word (name : string) :
  Spec.every_char (fun c => negb (is_whitespace c)) name ->
  scan_token name = (name, EmptyString).
Proof.
  induction name as [|c name IH]; simpl; [reflexivity|].
  intros [Hc Hrest]. apply negb_true_iff in Hc. rewrite Hc.
  now rewrite (IH Hrest).
Qed.

Lemma skip_word (name : string) :
  Spec.every_char (fun c => negb (is_whitespace c)) name ->
  skip_whitespace name = name.
Proof.
  destruct name as [|c name]; simpl; [reflexivity|].
  intros [Hc _]. apply negb_true_iff in Hc. now rewrite Hc.
Qed.

End TwoPassFacts.

(** X14. Every entry that the first loop of [src/pre_assembler.c] records has a
    body of at least one character, [body_length] equal to the length of
    that body, and a name of at most [MAX_LABEL_LENGTH] characters: a
    macro whose definition has no body line is not recorded at all. *)
Theorem recorded_macros (file_name text : string) :
  Forall recorded (PreAssembler.g_macros (PreAssembler.first_pass file_name text)).
Proof.
  unfold PreAssembler.first_pass.
  assert (H : forall lines l,
             Forall recorded (PreAssembler.g_macros l) ->
             Forall recorded
               (PreAssembler.g_macros
                  (fold_left (PreAssembler.first_pass_line file_name) lines l))).
  { induction lines as [|line lines IH]; intros l Hl; simpl; [assumption|].
    apply IH.
    destruct (TwoPassFacts.first_pass_line_table file_name l line)
      as [E | [name' [Hbody E]]]; rewrite E; [assumption|].
    unfold PreAssembler.add_macro. apply Forall_app. split; [assumption|].
    constructor; [|constructor]. unfold recorded; simpl.
    rewrite (TableFacts.strncpy_all (PreAssembler.macro_body l)) by lia.
    split; [assumption|]. split; [reflexivity | apply TableFacts.strncpy_length]. }
  apply H. constructor.
Qed.

(** X15. What the first loop of [src/pre_assembler.c] does with the name on
    a [mcro] line. When [extract_macro_name] yields a name and the name
    fails [is_valid_macro_name], the line is reported once, as a reserved
    keyword when [is_reserved_keyword] knows the name and as an invalid
    format otherwise; the table, the definition flag and the body
    collected so far stay as they were. When [extract_macro_name] yields
    no name, nothing is reported for the line. That is so for every line
    whose trimmed text is [mcro], a blank and a name of more than
    [MAX_LABEL_LENGTH] characters: such a name is never reported. *)
Theorem bad_macro_name_reported (file_name : string) (l : PreAssembler.locals)
    (line : string) :
  strlen line <= MAX_LINE_LENGTH + 1 ->
  let l' := PreAssembler.first_pass_line file_name l line in
  (forall name',
     PreAssembler.extract_macro_name line PreAssembler.sizeof_current_macro_name
     = Some name' ->
     PreAssembler.is_valid_macro_name name' = false ->
     stderr (PreAssembler.diag l')
     = (stderr (PreAssembler.diag l)
        ++ [Diag file_name (S (PreAssembler.line_number l))
              (if is_reserved_keyword name'
               then ERROR_MACRO_NAME_RESERVED_KEYWORD
               else ERROR_MACRO_NAME_INVALID_FORMAT)])%list
     /\ PreAssembler.has_errors_in_file l' = true
     /\ PreAssembler.g_macros l' = PreAssembler.g_macros l
     /\ PreAssembler.in_macro_definition l' = PreAssembler.in_macro_definition l
     /\ PreAssembler.macro_body l' = PreAssembler.macro_body l)
  /\ (PreAssembler.extract_macro_name line PreAssembler.sizeof_current_macro_name
      = None ->
      PreAssembler.diag l' = PreAssembler.diag l
      /\ PreAssembler.has_errors_in_file l' = PreAssembler.has_errors_in_file l)
  /\ (forall name,
        trim_whitespace (strncpy line MAX_LINE_LENGTH) = "mcro " ++ name ->
        Spec.every_char (fun c => negb (is_whitespace c)) name ->
        MAX_LABEL_LENGTH < strlen name ->
        PreAssembler.extract_macro_name line PreAssembler.sizeof_current_macro_name
        = None).
Proof.
  intros Hlen. cbv zeta.
  apply Nat.leb_le in Hlen. rewrite Nat.leb_antisym in Hlen.
  apply negb_true_iff in Hlen.
  split; [|split].
  - intros name' Hname Hvalid. unfold PreAssembler.first_pass_line; cbv zeta.
    rewrite Hlen.
    unfold PreAssembler.is_macro_definition_start. rewrite Hname.
    simpl PreAssembler.name_after. rewrite Hvalid. simpl negb. cbv iota.
    destruct (is_reserved_keyword name'); simpl; auto.
  - intros Hnone. unfold PreAssembler.first_pass_line; cbv zeta.
    rewrite Hlen.
    unfold PreAssembler.is_macro_definition_start. rewrite Hnone.
    destruct (PreAssembler.is_macro_definition_end (Some line)); simpl; auto.
  - intros name Htrim Hword Hlong. unfold PreAssembler.extract_macro_name.
    rewrite Htrim.
    change (strncmp_eq ("mcro " ++ name) "mcro") with true.
    change (advance ("mcro " ++ name) 4) with (String " " name).
    cbn [negb]. cbv zeta.
    change (skip_whitespace (String " " name)) with (skip_whitespace name).
    rewrite (TwoPassFacts.skip_word name Hword), (TwoPassFacts.scan_word name Hword).
    destruct (strlen name =? 0); [reflexivity|].
    assert (E : (MAX_LABEL_LENGTH + 1 <=? strlen name) = true)
      by (apply Nat.leb_le; lia).
    now rewrite E.
Qed.

(** The line [mcro mov] at the start of a file, and a [mcro] line with a
    name of 31 letters. *)
Lemma bad_macro_name_reported_witness :
  stderr (PreAssembler.diag
            (PreAssembler.first_pass_line "prog" PreAssembler.entry
               MoreSamples.mcro_mov_line))
  = [Diag "prog" 1 ERROR_MACRO_NAME_RESERVED_KEYWORD]
  /\ PreAssembler.diag
       (PreAssembler.first_pass_line "prog" PreAssembler.entry
          MoreSamples.mcro_long_name_line)
     = PreAssembler.diag PreAssembler.entry.
Proof.
  split.
  - refine (proj1 (proj1 (bad_macro_name_reported "prog" PreAssembler.entry
                            MoreSamples.mcro_mov_line _) "mov" _ _));
      [vm_compute; lia | reflexivity | reflexivity].
  - assert (Hlen : strlen MoreSamples.mcro_long_name_line <= MAX_LINE_LENGTH + 1)
      by (vm_compute; lia).
    destruct (bad_macro_name_reported "prog" PreAssembler.entry
                MoreSamples.mcro_long_name_line Hlen) as (_ & Hnone & Hlong).
    refine (proj1 (Hnone (Hlong (Samples.repeat_char 31 "A") _ _ _)));
      [reflexivity | vm_compute; tauto | vm_compute; lia].
Defined.

(* ================================================================== *)
(** ** src/main.c: what the loop of the copy keeps true *)

Module SinglePassFacts.
Import CLib Definitions ErrorHandler Utils Files PreAssemblerCopy.
Import Invariants SinkFacts CLibFacts PreAssemblerCopyFacts Words.

(** *** Tokens are parts of the line *)

Lemma strncpy_append_exact (a b : string) : strncpy (a ++ b) (strlen a) = a.
Proof.
  unfold strlen. induction a as [|c a IH]; simpl; [now destruct b|].
  now rewrite IH.
Qed.

Lemma strstr_finds (pre needle post : string) :
  strstr (pre ++ needle ++ post) needle <> None.
Proof.
  induction pre as [|c pre IH].
  - simpl append. destruct (needle ++ post) eqn:E; simpl;
      unfold strncmp_eq; rewrite <- E, strncpy_append_exact, String.eqb_refl;
      discriminate.
  - simpl. destruct (strncmp_eq (String c (pre ++ needle ++ post)) needle);
      [discriminate | exact IH].
Qed.

Lemma strncpy_prefix (s : string) : forall n, s = strncpy s n ++ advance s n.
Proof.
  induction s as [|c s IH]; intros [|n]; simpl; try reflexivity.
  now rewrite <- IH.
Qed.

Lemma skip_delims_suffix (delims s : string) :
  exists pre, s = pre ++ skip_delims delims s.
Proof.
  induction s as [|c s [pre IH]]; simpl; [now exists EmptyString|].
  destruct (is_delim delims c).
  - exists (String c pre). simpl. now rewrite <- IH.
  - now exists EmptyString.
Qed.

Lemma token_split_parts (delims s : string) :
  forall tok after,
    token_split delims s = (tok, after) -> exists mid, s = tok ++ mid ++ after.
Proof.
  induction s as [|c s IH]; intros tok after; simpl.
  - intros H. inversion H. now exists EmptyString.
  - destruct (is_delim delims c).
    + intros H. inversion H. now exists (String c EmptyString).
    + destruct (token_split delims s) as [tok' after'] eqn:E.
      intros H. inversion H; subst.
      destruct (IH _ _ eq_refl) as [mid Hmid]. exists mid. simpl. now rewrite <- Hmid.
Qed.

Lemma strtok_parts (s delims tok rest : string) :
  strtok s delims = Some (tok, rest) ->
  exists pre mid, s = pre ++ tok ++ mid ++ rest.
Proof.
  unfold strtok. destruct (skip_delims_suffix delims s) as [pre Hpre].
  destruct (skip_delims delims s) as [|c t] eqn:E; [discriminate|].
  intros H.
  assert (Hsplit : token_split delims (String c t) = (tok, rest)) by congruence.
  apply token_split_parts in Hsplit as [mid Hmid].
  exists pre, mid. now rewrite Hpre at 1; rewrite Hmid.
Qed.

(** The second token of the first 80 characters occurs in the line. *)
Lemma second_token_found (line keyword rest macro_name rest' : string) :
  strtok (strncpy line MAX_LINE_LENGTH) strtok_delims = Some (keyword, rest) ->
  strtok rest strtok_delims = Some (macro_name, rest') ->
  strstr line macro_name <> None.
Proof.
  intros H1 H2.
  apply strtok_parts in H1 as [pre1 [mid1 H1]].
  apply strtok_parts in H2 as [pre2 [mid2 H2]].
  rewrite (strncpy_prefix line MAX_LINE_LENGTH), H1, H2.
  replace ((pre1 ++ keyword ++ mid1 ++ pre2 ++ macro_name ++ mid2 ++ rest')
           ++ advance line MAX_LINE_LENGTH)
    with ((pre1 ++ keyword ++ mid1 ++ pre2) ++ macro_name
          ++ (mid2 ++ rest' ++ advance line MAX_LINE_LENGTH))
    by (now rewrite !append_assoc).
  apply strstr_finds.
Qed.

Lemma legal_label_facts (label : string) :
  is_legal_label label = true ->
  is_reserved_keyword label = false /\ strlen label <= MAX_LABEL_LENGTH.
Proof.
  unfold is_legal_label. destruct label as [|c rest]; [discriminate|].
  destruct (negb (is_alpha c)); [discriminate|].
  destruct (negb (all_alphanumeric rest)); [discriminate|].
  destruct (MAX_LABEL_LENGTH <? strlen (String c rest)) eqn:Hlen; [discriminate|].
  destruct (is_reserved_keyword (String c rest)); [discriminate|].
  intros _. apply Nat.ltb_ge in Hlen. auto.
Qed.

(** *** What [is_macro_definition_start] can answer *)

Lemma start_kinds (line : string) (s : state) :
  forall started s',
    is_macro_definition_start line sizeof_temp_macro_name s = (started, s') ->
    match started with
    | Some name' =>
        s' = s /\ is_legal_label name' = true /\ g_in_macro_definition s = false
    | None =>
        s' = s
        \/ exists kind,
             s' = report_here kind s
             /\ (kind = ERROR_MACRO_DEFINITION_SYNTAX
                 \/ kind = ERROR_MACRO_NAME_INVALID_FORMAT
                 \/ (kind = ERROR_NESTED_MACRO_DEFINITION
                     /\ g_in_macro_definition s = true))
    end.
Proof.
  unfold is_macro_definition_start. intros started s'.
  destruct (strtok (strncpy line MAX_LINE_LENGTH) strtok_delims)
    as [[keyword rest]|] eqn:H1; [|intros H; inversion H; auto].
  destruct (negb (streq keyword "mcro")); [intros H; inversion H; auto|].
  destruct (strtok rest strtok_delims) as [[macro_name rest']|] eqn:H2;
    [|intros H; inversion H; right; eauto].
  pose proof (second_token_found _ _ _ _ _ H1 H2) as Hfound.
  destruct (strstr line macro_name) as [pos|]; [clear Hfound | contradiction].
  cbv zeta.
  destruct (negb (_ || _ || _)); [intros H; inversion H; right; eauto|].
  destruct (is_legal_label macro_name) eqn:Hlegal; simpl negb; cbv iota;
    [|intros H; inversion H; right; eauto].
  destruct (legal_label_facts _ Hlegal) as [Hres Hlen]. rewrite Hres.
  change (sizeof_temp_macro_name - 1) with MAX_LABEL_LENGTH.
  rewrite (TableFacts.strncpy_all _ _ Hlen).
  destruct (g_in_macro_definition s) eqn:Hdef;
    intros H; inversion H; subst.
  - right. eexists. split; [reflexivity|]. auto.
  - auto.
Qed.

(** *** One iteration *)

Ltac kinds_reported :=
  simpl;
  repeat first [ apply reports_none | apply reports_more ];
  try (unfold single_pass_kind, single_pass_kinds; simpl; tauto).

Lemma well_formed_fields (s s' : state) :
  g_in_macro_definition s' = g_in_macro_definition s ->
  g_current_macro s' = g_current_macro s ->
  g_macros_list s' = g_macros_list s ->
  overall_success s' = overall_success s ->
  well_formed s -> well_formed s'.
Proof.
  unfold well_formed. intros -> -> -> ->. auto.
Qed.

(** Closes [well_formed] of a state that differs from that of [H] in
    fields the predicate does not read. *)
Ltac same_shape H :=
  first [ exact H | revert H; apply well_formed_fields; reflexivity ].

Lemma write_kinds (writable : bool) (file_name : string) (texts : list string)
    (s : state) :
  let s' := write_if_clean writable file_name texts s in
  (well_formed s -> well_formed s')
  /\ reports single_pass_kind (diag s) (diag s')
  /\ (returned s' = true -> returned s = true \/ stderr (diag s') <> []).
Proof.
  unfold write_if_clean. tests; cbv zeta;
    (split; [apply well_formed_fields; reflexivity|]);
    (split; [kinds_reported|]); simpl; auto.
  intros _. right. now destruct (stderr (diag s)).
Qed.

Lemma define_or_expand_kinds (writable : bool) (file_name : string)
    (line_buffer trimmed_line : string) (s : state) :
  well_formed s ->
  let s' := define_or_expand writable file_name line_buffer trimmed_line s in
  well_formed s'
  /\ reports single_pass_kind (diag s) (diag s')
  /\ (returned s' = true -> returned s = true \/ stderr (diag s') <> []).
Proof.
  intros Hwf. unfold define_or_expand.
  destruct (g_in_macro_definition s) eqn:Hdef.
  - destruct (is_macro_definition_end trimmed_line s) as [ended s1] eqn:Hend.
    assert (Hs1 : well_formed s1 /\ g_in_macro_definition s1 = true
                  /\ reports single_pass_kind (diag s) (diag s1)
                  /\ returned s1 = returned s).
    { apply end_cases in Hend as [-> | [-> ->]];
        (split; [same_shape Hwf | split; [exact Hdef | split; [kinds_reported | reflexivity]]]). }
    destruct Hs1 as (Hwf1 & Hdef1 & Hr1 & Hret1).
    destruct ended.
    + split; [|split; [exact Hr1 | intros H; left; simpl in H; congruence]].
      destruct Hwf1 as (_ & Hnames & Hok). unfold well_formed; simpl. auto.
    + pose proof Hwf1 as (Hptr & Hnames & Hok). rewrite Hdef1 in Hptr.
      destruct Hptr as [i [Hcur Hlast]].
      unfold add_line_to_current_macro_content. rewrite Hcur.
      split; [|split; [exact Hr1 | intros H; left; simpl in H; congruence]].
      unfold well_formed; simpl. rewrite Hdef1. split; [|split; [|assumption]].
      * exists i. now rewrite append_content_length.
      * apply (proj1 (Forall_map name (fun n => is_legal_label n = true) _)).
        rewrite TableFacts.append_content_names.
        now apply (proj2 (Forall_map name (fun n => is_legal_label n = true) _)).
  - destruct (called_macro_of trimmed_line s) as [called s1] eqn:Hcall.
    assert (Hs1 : well_formed s1 /\ g_in_macro_definition s1 = false
                  /\ reports single_pass_kind (diag s) (diag s1)
                  /\ returned s1 = returned s).
    { apply called_cases in Hcall as [-> | [-> ->]];
        (split; [same_shape Hwf | split; [exact Hdef | split; [kinds_reported | reflexivity]]]). }
    destruct Hs1 as (Hwf1 & Hdef1 & Hr1 & Hret1).
    destruct called as [macro_to_expand|].
    + destruct (write_kinds writable file_name (content macro_to_expand) s1)
        as (Hw & Hr & Hret).
      split; [auto|]. split; [eapply reports_trans; eassumption|].
      intros H. apply Hret in H. rewrite <- Hret1. exact H.
    + destruct (is_macro_definition_start trimmed_line sizeof_temp_macro_name s1)
        as [started s2] eqn:Hstart.
      apply start_kinds in Hstart.
      destruct started as [temp_macro_name|].
      * destruct Hstart as (-> & Hlegal & _).
        destruct (legal_label_facts _ Hlegal) as [_ Hlen].
        split; [|split; [exact Hr1 | intros H; left; simpl in H; congruence]].
        unfold well_formed; simpl. destruct Hwf1 as (_ & Hnames & Hok).
        split; [|split; [|assumption]].
        -- eexists. split; [reflexivity|].
           unfold add_macro_to_list. rewrite length_app. simpl. lia.
        -- unfold add_macro_to_list. apply Forall_app. split; [assumption|].
           constructor; [|constructor]. simpl.
           now rewrite (TableFacts.strncpy_all _ _ Hlen).
      * assert (Hs2 : well_formed s2
                      /\ reports single_pass_kind (diag s1) (diag s2)
                      /\ returned s2 = returned s1).
        { destruct Hstart as [-> | [kind [-> Hkind]]];
            (split; [same_shape Hwf1 | split; [|reflexivity]]);
            [constructor|].
          simpl. apply reports_one.
          destruct Hkind as [-> | [-> | [_ Hin]]];
            [unfold single_pass_kind; simpl; tauto
            |unfold single_pass_kind; simpl; tauto
            |congruence]. }
        destruct Hs2 as (Hwf2 & Hr2 & Hret2).
        destruct (write_kinds writable file_name [line_buffer] s2)
          as (Hw & Hr & Hret).
        split; [auto|]. split.
        -- eapply reports_trans; [|exact Hr]. eapply reports_trans; eassumption.
        -- intros H. apply Hret in H. rewrite <- Hret1, <- Hret2. exact H.
Qed.

Lemma process_line_kinds (writable : bool) (file_name : string) (s : state)
    (line_buffer : string) :
  well_formed s ->
  let s' := process_line writable file_name s line_buffer in
  well_formed s'
  /\ reports single_pass_kind (diag s) (diag s')
  /\ (returned s' = true -> returned s = true \/ stderr (diag s') <> []).
Proof.
  intros Hwf. unfold process_line.
  destruct (returned s) eqn:Hret;
    [split; [assumption | split; [constructor | auto]]|].
  cbv zeta.
  set (s0 := set_line_number (S (g_current_line_number s)) s).
  assert (Hwf0 : well_formed s0) by exact Hwf.
  assert (Hret0 : returned s0 = false) by exact Hret.
  change (diag s) with (diag s0). clearbody s0. clear Hwf Hret.
  destruct (exceeds_limit line_buffer).
  { split; [same_shape Hwf0 | split; [kinds_reported|]].
    intros _. right. simpl. now destruct (stderr (diag s0)). }
  set (trimmed_line := trimmed_copy line_buffer).
  set (s1 := check_unexpected_end file_name trimmed_line s0).
  assert (Hs1 : well_formed s1 /\ reports single_pass_kind (diag s0) (diag s1)
                /\ returned s1 = false).
  { destruct (check_cases file_name trimmed_line s0) as [H | [H | H]];
      fold s1 in H; rewrite H;
      (split; [same_shape Hwf0 | split; [kinds_reported | exact Hret0]]). }
  destruct Hs1 as (Hwf1 & Hr1 & Hret1). clearbody s1.
  assert (Htail : let s' := copy_or_dispatch writable file_name line_buffer
                              trimmed_line s1 in
                  well_formed s'
                  /\ reports single_pass_kind (diag s1) (diag s')
                  /\ (returned s' = true -> returned s1 = true \/ stderr (diag s') <> [])).
  { unfold copy_or_dispatch.
    destruct (negb (g_in_macro_definition s1) && _).
    - destruct (write_kinds writable file_name [line_buffer] s1) as (Hw & Hr & Hret).
      auto.
    - cbv zeta. destruct (negb (g_in_macro_definition s1));
        [|now apply define_or_expand_kinds].
      apply (define_or_expand_kinds _ _ _ _ (set_has_non_empty_lines s1)).
      same_shape Hwf1. }
  destruct Htail as (Hwf' & Hr' & Hret').
  split; [assumption|]. split; [eapply reports_trans; eassumption|].
  intros H. apply Hret' in H as [H | H]; [congruence | now right].
Qed.

Lemma scan_kinds (writable : bool) (file_name : string) (lines : list string) :
  forall s,
    well_formed s ->
    (returned s = true -> stderr (diag s) <> []) ->
    let s' := fold_left (process_line writable file_name) lines s in
    well_formed s'
    /\ reports single_pass_kind (diag s) (diag s')
    /\ (returned s' = true -> stderr (diag s') <> []).
Proof.
  induction lines as [|line lines IH]; intros s Hwf Hret; simpl;
    [split; [assumption | split; [constructor | assumption]]|].
  destruct (process_line_kinds writable file_name s line Hwf) as (Hwf1 & Hr1 & Hret1).
  destruct (IH (process_line writable file_name s line) Hwf1) as (Hwf2 & Hr2 & Hret2).
  - intros H. apply Hret1 in H as [H | H]; [|assumption].
    eapply reports_noisy; [exact Hr1 | auto].
  - split; [assumption|]. split; [eapply reports_trans; eassumption | assumption].
Qed.

Lemma entry_well_formed (file_name : string) : well_formed (entry file_name).
Proof. unfold well_formed; simpl. auto. Qed.

Lemma final_checks_kinds (file_name : string) (s : state) :
  reports single_pass_kind (diag s) (diag (final_checks file_name s))
  /\ (overall_success (final_checks file_name s) = false ->
      stderr (diag (final_checks file_name s)) <> [] \/ overall_success s = false).
Proof.
  unfold final_checks. tests; (split; [kinds_reported|]); simpl; auto;
    intros _; left;
    try (now destruct (stderr (diag s)));
    now destruct (stderr (diag s) ++ _)%list.
Qed.

(** The return value of the copy is TRUE exactly when nothing was
    reported. *)
Lemma result_is_quiet (file_name : string) (e : env) :
  result (process_pre_assembly_for_file file_name e)
  = is_nil (errors (process_pre_assembly_for_file file_name e)).
Proof.
  unfold process_pre_assembly_for_file.
  destruct (as_on_disk e) as [text|]; [|reflexivity].
  destruct (scan_kinds (am_writable e) file_name (lines_of text) (entry file_name)
              (entry_well_formed file_name))
    as ((_ & _ & Hok) & _ & Hret); [discriminate|].
  fold (scan (am_writable e) file_name text) in Hok, Hret.
  destruct (checked_scan (am_writable e) file_name text) as [Hflag _].
  set (s := scan (am_writable e) file_name text) in *.
  destruct (final_checks_kinds file_name s) as [_ Hfail].
  destruct (returned s).
  - simpl. specialize (Hret eq_refl). now destruct (stderr (diag s)).
  - unfold has_errors.
    destruct (g_errors_occurred (diag (final_checks file_name s))) eqn:Hg; simpl.
    + apply Hflag in Hg. now destruct (stderr (diag (final_checks file_name s))).
    + assert (Hquiet : stderr (diag (final_checks file_name s)) = []).
      { destruct (stderr (diag (final_checks file_name s))) eqn:E; [reflexivity|].
        assert (Hne : stderr (diag (final_checks file_name s)) <> [])
          by (rewrite E; discriminate).
        apply Hflag in Hne. congruence. }
      destruct (overall_success (final_checks file_name s)) eqn:Hov; simpl.
      * now rewrite Hquiet.
      * destruct (Hfail eq_refl) as [H | H]; [contradiction | congruence].
Qed.

End SinglePassFacts.

(* ================================================================== *)
(** ** The two passes as a whole *)

Import Invariants.

(** X21. The loop of the copy in [src/main.c] keeps its state well formed on
    every input: inside a definition [g_current_macro] points to the last
    node of the list, every name in the list is a legal label, and no
    internal failure has cleared [overall_success]. *)
Theorem single_pass_invariant (writable : bool) (file_name text : string) :
  well_formed (PreAssemblerCopy.scan writable file_name text).
Proof.
  unfold PreAssemblerCopy.scan.
  apply (SinglePassFacts.scan_kinds writable file_name
           (PreAssemblerCopy.lines_of text) (PreAssemblerCopy.entry file_name)
           (SinglePassFacts.entry_well_formed file_name)).
  discriminate.
Qed.

(** X22. The copy in [src/main.c] reports eight kinds of error at most. It
    never reports a nested definition, a reserved macro name (a reserved
    name fails [is_legal_label] first and is reported as an invalid
    format) or an internal error. *)
Theorem single_pass_reports (file_name : string) (e : env) :
  Forall single_pass_kind
    (map d_kind (errors (PreAssemblerCopy.process_pre_assembly_for_file file_name e))).
Proof.
  unfold PreAssemblerCopy.process_pre_assembly_for_file.
  destruct (as_on_disk e) as [text|];
    [|simpl; constructor; [unfold single_pass_kind; simpl; tauto | constructor]].
  destruct (SinglePassFacts.scan_kinds (am_writable e) file_name
              (PreAssemblerCopy.lines_of text) (PreAssemblerCopy.entry file_name)
              (SinglePassFacts.entry_well_formed file_name))
    as (_ & Hscan & _); [discriminate|].
  fold (PreAssemblerCopy.scan (am_writable e) file_name text) in Hscan.
  set (s := PreAssemblerCopy.scan (am_writable e) file_name text) in *.
  destruct (SinglePassFacts.final_checks_kinds file_name s) as [Hfinal _].
  assert (Hs : Forall single_pass_kind (kinds (PreAssemblerCopy.diag s)))
    by (apply (SinkFacts.reports_kinds _ _ _ Hscan); constructor).
  assert (Hf : Forall single_pass_kind
                 (kinds (PreAssemblerCopy.diag (PreAssemblerCopy.final_checks file_name s))))
    by (apply (SinkFacts.reports_kinds _ _ _ Hfinal); exact Hs).
  destruct (PreAssemblerCopy.returned s); [exact Hs|].
  destruct (_ || _); exact Hf.
Qed.


(** X20. For a file name that fits the name buffers,
    [process_pre_assembly_for_file] of [src/pre_assembler.c] calls
    [fclose] on its input stream a second time, which no behaviour is
    defined for, exactly when the [.as] file opens, the first loop raises
    no error and the [.am] file cannot be opened; nothing has been printed
    by then. In every other case it returns, and TRUE exactly when nothing
    was reported; when something was reported the [.am] file is not
    touched, and otherwise it is what the second loop wrote. *)
Theorem two_pass_commit (file_name : string) (e : env) :
  strlen file_name + strlen AS_EXTENSION < PreAssembler.sizeof_filename ->
  ((exists printed,
      PreAssembler.process_pre_assembly_for_file file_name e = Undefined printed)
   <-> (am_writable e = false
        /\ exists text,
             as_on_disk e = Some text
             /\ PreAssembler.has_errors_in_file
                  (PreAssembler.first_pass file_name text) = false))
  /\ match PreAssembler.process_pre_assembly_for_file file_name e with
     | Returns o =>
         result o = is_nil (errors o)
         /\ (errors o <> [] -> am_after o = am_on_disk e)
         /\ (errors o = [] ->
             exists text,
               as_on_disk e = Some text
               /\ am_after o
                  = PreAssembler.output_file
                      (PreAssembler.second_pass text
                         (PreAssembler.first_pass file_name text) (Some EmptyString))
               /\ am_after o <> None)
     | Undefined printed => printed = []
     end.
Proof.
  intros _.
  pose proof (PreAssemblerFacts.undefined_run file_name e) as Hrun.
  destruct (PreAssembler.process_pre_assembly_for_file file_name e) as [o|printed] eqn:E.
  - split.
    + split; [intros [printed H]; discriminate|].
      intros (Hw & text & Hin & Hclean).
      destruct Hrun as [H | [H | (text' & Hin' & H)]]; congruence.
    + destruct (PreAssemblerFacts.commit_policy file_name e o E) as [Hbad Hgood].
      destruct (errors o) eqn:Eo.
      * destruct (Hgood eq_refl) as (text & written & Hin & _ & Hout & Hres & Ham).
        split; [exact Hres|]. split; [congruence|].
        intros _. exists text. rewrite Ham, Hout. repeat split; auto. discriminate.
      * destruct Hbad as [Hres Ham]; [discriminate|].
        split; [exact Hres|]. split; [auto | discriminate].
  - destruct Hrun as (Hp & Hw & text & Hin & Hclean).
    split; [|exact Hp].
    split; [intros _; split; [exact Hw | exists text; auto] | intros _; eauto].
Qed.

(** A file without macros in a directory where no [.am] file can be
    opened. *)
Lemma two_pass_commit_witness :
  PreAssembler.process_pre_assembly_for_file "prog" (MoreSamples.read_only Samples.plain)
  = Undefined [].
Proof.
  destruct (two_pass_commit "prog" (MoreSamples.read_only Samples.plain))
    as [Hiff Hcases]; [vm_compute; lia|].
  destruct (proj2 Hiff) as [printed E];
    [split; [reflexivity | exists Samples.plain; split; reflexivity]|].
  rewrite E in Hcases. rewrite E. now rewrite Hcases.
Defined.

(** X30. [main] linked with [src/pre_assembler.c] exits with 0 when the call
    returns and has reported nothing, with 1 when it returns and has
    reported something, and has no defined behaviour when the call has
    none. Linked with the copy it exits with 0 exactly when nothing was
    reported and an [.am] file exists afterwards, with 1 otherwise. With
    another number of arguments it exits with 1 and calls nothing. *)
Theorem main_exit_status (program_name file_name : string) (e : env) :
  MainProgram.main PreAssembler.process_pre_assembly_for_file
    [program_name; file_name] e
  = match PreAssembler.process_pre_assembly_for_file file_name e with
    | Returns o => Returns ((if is_nil (errors o) then 0 else 1)%Z, am_after o)
    | Undefined printed => Undefined printed
    end
  /\ MainProgram.main MainProgram.process_of_copy [program_name; file_name] e
     = Returns
         ((if is_nil (errors (PreAssemblerCopy.process_pre_assembly_for_file file_name e))
           then match am_after
                        (PreAssemblerCopy.process_pre_assembly_for_file file_name e) with
                | Some _ => 0
                | None => 1
                end
           else 1)%Z,
          am_after (PreAssemblerCopy.process_pre_assembly_for_file file_name e))
  /\ forall process,
       MainProgram.main process [program_name] e = Returns (1%Z, am_on_disk e)
       /\ forall extra more,
            MainProgram.main process (program_name :: file_name :: extra :: more) e
            = Returns (1%Z, am_on_disk e).
Proof.
  split; [|split; [|intros process; split; reflexivity]].
  - unfold MainProgram.main.
    destruct (PreAssembler.process_pre_assembly_for_file file_name e)
      as [o|printed] eqn:E; [|reflexivity].
    destruct (PreAssemblerFacts.commit_policy file_name e o E) as [Hbad Hgood].
    destruct (errors o) eqn:Eo.
    + destruct (Hgood eq_refl) as (text & written & _ & _ & _ & Hres & Ham).
      now rewrite Hres, Ham.
    + destruct Hbad as [Hres _]; [discriminate|]. now rewrite Hres.
  - unfold MainProgram.main, MainProgram.process_of_copy.
    rewrite (SinglePassFacts.result_is_quiet file_name e).
    destruct (is_nil _); [|reflexivity].
    now destruct (am_after _).
Qed.

(* ================================================================== *)
(** ** Single lines, at sample inputs *)

(** A second [mcro FOO] when FOO is recorded. *)
Lemma redefinition_reported_witness :
  stderr (PreAssembler.diag
            (PreAssembler.first_pass_line "prog" MoreSamples.foo_recorded
               MoreSamples.mcro_foo_line))
  = [Diag "prog" 4 ERROR_LABEL_REDEFINITION]
  /\ PreAssembler.g_macros
       (PreAssembler.first_pass_line "prog" MoreSamples.foo_recorded
          MoreSamples.mcro_foo_line)
     = PreAssembler.g_macros MoreSamples.foo_recorded.
Proof.
  destruct (PreAssemblerFacts.redefinition_reported "prog" MoreSamples.foo_recorded
              MoreSamples.mcro_foo_line "FOO"
              {| PreAssembler.name := "FOO";
                 PreAssembler.body := "add r1,r2" ++ Samples.nl;
                 PreAssembler.body_length := 10 |})
    as (Hlog & Htable & _);
    [vm_compute; lia | reflexivity | reflexivity | reflexivity |].
  split; [exact Hlog | exact Htable].
Defined.


(** The line [mcroend] at the start of a file, and the buffer that holds
    [mcroend] and 74 blanks of a longer line. *)
Lemma unexpected_end_step_witness :
  PreAssemblerCopy.diag
    (PreAssemblerCopy.process_line true "prog" (PreAssemblerCopy.entry "prog")
       MoreSamples.mcroend_line)
  = report_error "prog" 1 ERROR_UNEXPECTED_MACRO_END (reset_error_flag quiet)
  /\ PreAssemblerCopy.diag
       (PreAssemblerCopy.process_line true "prog" (PreAssemblerCopy.entry "prog")
          MoreSamples.mcroend_padded)
     = report_error "prog" 1 ERROR_LINE_TOO_LONG (reset_error_flag quiet).
Proof.
  split.
  - exact (proj1 (PreAssemblerCopyFacts.unexpected_end_step true "prog"
                    (PreAssemblerCopy.entry "prog") MoreSamples.mcroend_line
                    eq_refl eq_refl eq_refl)).
  - exact (proj1 (PreAssemblerCopyFacts.unexpected_end_step true "prog"
                    (PreAssemblerCopy.entry "prog") MoreSamples.mcroend_padded
                    eq_refl eq_refl eq_refl)).
Defined.

(** X29. [is_macro_call] of the copy decides like the check written out in the
    loop of [process_pre_assembly_for_file]: it names a macro exactly when
    the loop expands one, reports the same syntax error, and the name it
    returns is that of an entry of the list. *)
Theorem macro_call_check (line : string) (s : PreAssemblerCopy.state) :
  MainProgram.is_macro_call line s
  = (option_map PreAssemblerCopy.name (fst (PreAssemblerCopy.called_macro_of line s)),
     snd (PreAssemblerCopy.called_macro_of line s))
  /\ match fst (MainProgram.is_macro_call line s) with
     | Some macro_name =>
         exists m,
           In m (PreAssemblerCopy.g_macros_list s)
           /\ PreAssemblerCopy.name m = macro_name
     | None => True
     end.
Proof.
  unfold MainProgram.is_macro_call, PreAssemblerCopy.called_macro_of.
  destruct (strtok (strncpy line MAX_LINE_LENGTH) PreAssemblerCopy.strtok_delims)
    as [[first_token rest]|]; [|split; [reflexivity | exact I]].
  destruct (PreAssemblerCopy.find_macro_in_list (PreAssemblerCopy.g_macros_list s)
              first_token) as [m|] eqn:Hfind; [|split; [reflexivity | exact I]].
  assert (Hin : In m (PreAssemblerCopy.g_macros_list s)).
  { revert Hfind. induction (PreAssemblerCopy.g_macros_list s) as [|m0 l IH];
      simpl; [discriminate|].
    destruct (streq (PreAssemblerCopy.name m0) first_token).
    - intros H. inversion H. now left.
    - intros H. right. now apply IH. }
  destruct (strtok rest PreAssemblerCopy.strtok_delims) as [[extra rest']|].
  - destruct (Ascii.eqb (deref extra) ";"%char); simpl;
      (split; [reflexivity|]); [eauto | exact I].
  - simpl. split; [reflexivity | eauto].
Qed.

(* ================================================================== *)
(** ** src/main.c: files of blank lines and comments *)

Module BlankFacts.
Import CLib Definitions ErrorHandler Utils Files PreAssemblerCopy.
Import CLibFacts PreAssemblerCopyFacts Words.









End BlankFacts.



(* ================================================================== *)
(** ** Single lines: calls, bodies and [mcroend] *)

Module LineFacts.
Import CLib Definitions.

Lemma find_macro_name (g : list PreAssembler.Macro) (wanted : string) :
  forall m,
    PreAssembler.find_macro g wanted = Some m -> PreAssembler.name m = wanted.
Proof.
  induction g as [|m0 g IH]; simpl; [discriminate|].
  intros m. unfold streq. destruct (String.eqb (PreAssembler.name m0) wanted) eqn:E.
  - intros H. inversion H; subst. now apply String.eqb_eq.
  - apply IH.
Qed.

(** What [is_macro_call] returns is the name of the entry that
    [find_macro] then finds again. *)
Lemma is_macro_call_found (g : list PreAssembler.Macro) (line macro_name : string) :
  PreAssembler.is_macro_call g line = Some macro_name ->
  exists m, PreAssembler.find_macro g macro_name = Some m.
Proof.
  unfold PreAssembler.is_macro_call.
  destruct (PreAssembler.scan_token _) as [token stop].
  destruct (strlen token =? 0); [discriminate|].
  destruct (MAX_LABEL_LENGTH <? strlen token); [discriminate|].
  destruct (PreAssembler.find_macro g token) as [m|] eqn:E; [|discriminate].
  intros H. inversion H. exists m.
  now rewrite (find_macro_name _ _ _ E).
Qed.

(** The call check of the copy reads the list only. *)
Lemma called_any_state (line : string) (s s' : PreAssemblerCopy.state)
    (m : PreAssemblerCopy.Macro) :
  fst (PreAssemblerCopy.called_macro_of line s) = Some m ->
  PreAssemblerCopy.g_macros_list s' = PreAssemblerCopy.g_macros_list s ->
  PreAssemblerCopy.called_macro_of line s' = (Some m, s').
Proof.
  unfold PreAssemblerCopy.called_macro_of. intros H ->.
  destruct (strtok (strncpy line MAX_LINE_LENGTH) PreAssemblerCopy.strtok_delims)
    as [[first_token rest]|]; [|discriminate].
  destruct (PreAssemblerCopy.find_macro_in_list (PreAssemblerCopy.g_macros_list s)
              first_token) as [called|]; [|discriminate].
  destruct (strtok rest PreAssemblerCopy.strtok_delims) as [[extra rest']|];
    [|simpl in H; congruence].
  destruct (Ascii.eqb (deref extra) ";"%char); simpl in H; congruence.
Qed.

(** Where the call check finds a macro, [is_macro_definition_end] reports
    nothing: a token after the first one starts a comment. *)
Lemma end_silent_at_call (line : string) (s s' : PreAssemblerCopy.state)
    (m : PreAssemblerCopy.Macro) :
  fst (PreAssemblerCopy.called_macro_of line s) = Some m ->
  PreAssemblerCopy.g_macros_list s' = PreAssemblerCopy.g_macros_list s ->
  PreAssemblerCopy.is_macro_definition_end line s'
  = (fst (PreAssemblerCopy.is_macro_definition_end line s), s').
Proof.
  unfold PreAssemblerCopy.called_macro_of, PreAssemblerCopy.is_macro_definition_end.
  intros H _.
  destruct (strtok (strncpy line MAX_LINE_LENGTH) PreAssemblerCopy.strtok_delims)
    as [[first_token rest]|]; [|discriminate].
  destruct (negb (streq first_token "mcroend")); [reflexivity|].
  destruct (PreAssemblerCopy.find_macro_in_list (PreAssemblerCopy.g_macros_list s)
              first_token) as [called|]; [|discriminate].
  destruct (strtok rest PreAssemblerCopy.strtok_delims) as [[extra rest']|];
    [|reflexivity].
  destruct (Ascii.eqb (deref extra) ";"%char); [reflexivity | discriminate].
Qed.

(** [fputs] of each line in turn. *)
Lemma concat_join (texts : list string) :
  String.concat EmptyString texts = join texts.
Proof.
  induction texts as [|t [|t' ts] IH]; [reflexivity | |].
  - unfold join; simpl. now rewrite CLibFacts.append_empty_r.
  - change (String.concat EmptyString (t :: t' :: ts))
      with (t ++ EmptyString ++ String.concat EmptyString (t' :: ts)).
    rewrite IH. reflexivity.
Qed.

End LineFacts.

(** X18. In the second loop of [src/pre_assembler.c], a line outside a
    definition that [is_macro_call] takes for a call is replaced in the
    open output by the body of the macro found, after the text up to the
    first colon when the line has one; the test for a macro that is not
    found never fails. *)
Theorem macro_call_replaced (l : PreAssembler.locals) (line macro_name written : string) :
  fst (PreAssembler.is_macro_definition_start (Some line)
         (Some (PreAssembler.current_macro_name l))
         PreAssembler.sizeof_current_macro_name) = false ->
  PreAssembler.is_macro_definition_end (Some line) = false ->
  PreAssembler.in_macro_definition l = false ->
  PreAssembler.output_file l = Some written ->
  PreAssembler.is_macro_call (PreAssembler.g_macros l) line = Some macro_name ->
  exists m,
    PreAssembler.find_macro (PreAssembler.g_macros l) macro_name = Some m
    /\ PreAssembler.output_file (PreAssembler.second_pass_line l line)
       = Some (written
               ++ match strchr line ":"%char with
                  | Some _ => strncpy line (span_to line ":"%char + 1)
                  | None => EmptyString
                  end
               ++ PreAssembler.body m).
Proof.
  intros Hstart Hend Hdef Hout Hcall.
  destruct (LineFacts.is_macro_call_found _ _ _ Hcall) as [m Hfind].
  exists m. split; [assumption|].
  unfold PreAssembler.second_pass_line.
  destruct (PreAssembler.is_macro_definition_start (Some line)
              (Some (PreAssembler.current_macro_name l))
              PreAssembler.sizeof_current_macro_name) as [started buffer].
  simpl in Hstart. subst started. rewrite Hend, Hdef, Hout. simpl.
  unfold PreAssembler.expand_line. rewrite Hcall, Hfind.
  now destruct (strchr line ":"%char).
Qed.

(** The line [LOOP: FOO] with FOO recorded. *)
Lemma macro_call_replaced_witness :
  PreAssembler.output_file
    (PreAssembler.second_pass_line MoreSamples.foo_second_pass
       MoreSamples.labelled_call_line)
  = Some ("; " ++ "LOOP:" ++ "add r1,r2" ++ Samples.nl).
Proof.
  destruct (macro_call_replaced MoreSamples.foo_second_pass
              MoreSamples.labelled_call_line "FOO" "; "
              eq_refl eq_refl eq_refl eq_refl eq_refl) as [m [Hfind Hout]].
  rewrite Hout. vm_compute in Hfind. inversion Hfind. reflexivity.
Defined.

(** X27. While the loop of the copy runs outside a definition, take a
    buffer that passes the length test, whose trimmed copy is not blank
    or a comment, is not accepted by [is_macro_definition_end], and for
    which the call check finds the macro [m]. The buffer counts as a
    non-empty line, and the list and the scanner state stay as they were.
    When an error was reported earlier nothing is written. Otherwise the
    content lines of [m] are appended to the [.am] file, in order, and
    nothing is reported; the file is opened when it was not open yet, and
    when it cannot be opened ERROR_FILE_OPEN_FAILED is reported at line 0
    and the function returns. *)
Theorem macro_call_expanded (writable : bool) (file_name : string)
    (s : PreAssemblerCopy.state) (line_buffer : string) (m : PreAssemblerCopy.Macro) :
  PreAssemblerCopy.returned s = false ->
  PreAssemblerCopy.g_in_macro_definition s = false ->
  PreAssemblerCopy.exceeds_limit line_buffer = false ->
  is_empty_or_comment_line (PreAssemblerCopy.trimmed_copy line_buffer) = false ->
  fst (PreAssemblerCopy.is_macro_definition_end
         (PreAssemblerCopy.trimmed_copy line_buffer) s) = false ->
  fst (PreAssemblerCopy.called_macro_of
         (PreAssemblerCopy.trimmed_copy line_buffer) s) = Some m ->
  let s' := PreAssemblerCopy.process_line writable file_name s line_buffer in
  PreAssemblerCopy.g_macros_list s' = PreAssemblerCopy.g_macros_list s
  /\ PreAssemblerCopy.g_in_macro_definition s' = false
  /\ PreAssemblerCopy.has_non_empty_lines s' = true
  /\ if has_errors (PreAssemblerCopy.diag s) then
       PreAssemblerCopy.am_file s' = PreAssemblerCopy.am_file s
       /\ PreAssemblerCopy.diag s' = PreAssemblerCopy.diag s
       /\ PreAssemblerCopy.returned s' = false
     else
       match PreAssemblerCopy.am_file s with
       | Some written =>
           PreAssemblerCopy.am_file s'
           = Some (written ++ join (PreAssemblerCopy.content m))
           /\ PreAssemblerCopy.diag s' = PreAssemblerCopy.diag s
           /\ PreAssemblerCopy.returned s' = false
       | None =>
           if writable then
             PreAssemblerCopy.am_file s' = Some (join (PreAssemblerCopy.content m))
             /\ PreAssemblerCopy.diag s' = PreAssemblerCopy.diag s
             /\ PreAssemblerCopy.returned s' = false
           else
             PreAssemblerCopy.am_file s' = None
             /\ PreAssemblerCopy.diag s'
                = report_error file_name 0 ERROR_FILE_OPEN_FAILED
                    (PreAssemblerCopy.diag s)
             /\ PreAssemblerCopy.returned s' = true
       end.
Proof.
  intros Hret Hdef Hlen Hempty Hend Hcall.
  unfold PreAssemblerCopy.process_line. rewrite Hret, Hlen. cbv zeta.
  set (t := PreAssemblerCopy.trimmed_copy line_buffer) in *.
  set (s0 := PreAssemblerCopy.set_line_number
               (S (PreAssemblerCopy.g_current_line_number s)) s).
  assert (Hquiet : PreAssemblerCopy.check_unexpected_end file_name t s0 = s0).
  { unfold PreAssemblerCopy.check_unexpected_end.
    change (PreAssemblerCopy.g_in_macro_definition s0)
      with (PreAssemblerCopy.g_in_macro_definition s).
    rewrite Hdef. cbn [negb].
    rewrite (LineFacts.end_silent_at_call t s s0 m Hcall eq_refl), Hend.
    reflexivity. }
  rewrite Hquiet.
  unfold PreAssemblerCopy.copy_or_dispatch.
  change (PreAssemblerCopy.g_in_macro_definition s0)
    with (PreAssemblerCopy.g_in_macro_definition s).
  rewrite Hdef, Hempty. cbn [negb andb]. cbv zeta.
  unfold PreAssemblerCopy.define_or_expand.
  change (PreAssemblerCopy.g_in_macro_definition
            (PreAssemblerCopy.set_has_non_empty_lines s0))
    with (PreAssemblerCopy.g_in_macro_definition s).
  rewrite Hdef.
  rewrite (LineFacts.called_any_state t s
             (PreAssemblerCopy.set_has_non_empty_lines s0) m Hcall eq_refl).
  unfold PreAssemblerCopy.write_if_clean.
  change (PreAssemblerCopy.diag (PreAssemblerCopy.set_has_non_empty_lines s0))
    with (PreAssemblerCopy.diag s).
  change (PreAssemblerCopy.am_file (PreAssemblerCopy.set_has_non_empty_lines s0))
    with (PreAssemblerCopy.am_file s).
  rewrite (LineFacts.concat_join (PreAssemblerCopy.content m)).
  destruct (has_errors (PreAssemblerCopy.diag s)); [simpl; auto 10|].
  destruct (PreAssemblerCopy.am_file s) as [written|]; [simpl; auto 10|].
  destruct writable; simpl; auto 10.
Qed.

(** The line [FOO] after the definition of FOO. *)
Lemma macro_call_expanded_witness :
  PreAssemblerCopy.am_file
    (PreAssemblerCopy.process_line true "prog" MoreSamples.foo_defined
       MoreSamples.foo_call_line)
  = Some ("add r1,r2" ++ Samples.nl).
Proof.
  exact (proj1 (proj2 (proj2 (proj2
           (macro_call_expanded true "prog" MoreSamples.foo_defined
              MoreSamples.foo_call_line
              {| PreAssemblerCopy.name := "FOO";
                 PreAssemblerCopy.content := ["add r1,r2" ++ Samples.nl] |}
              eq_refl eq_refl eq_refl eq_refl eq_refl eq_refl))))).
Defined.

(** X26. While the loop of the copy runs inside a definition, with
    [g_current_macro] pointing at the macro being defined, each buffer
    read does exactly one of three things. A buffer that fails the length
    test is reported as too long and is not appended. A buffer within the
    limit whose trimmed copy [is_macro_definition_end] accepts closes the
    definition. Every other buffer is appended, as read, to the content of
    the macro (a [mcro] line and a [mcroend] with text after it among
    them, the latter with a syntax error reported). Nothing is written to
    the [.am] file in any of the three. *)
Theorem body_line_captured (writable : bool) (file_name : string)
    (s : PreAssemblerCopy.state) (line_buffer : string) (i : nat) :
  PreAssemblerCopy.returned s = false ->
  PreAssemblerCopy.g_in_macro_definition s = true ->
  PreAssemblerCopy.g_current_macro s = Some i ->
  let s' := PreAssemblerCopy.process_line writable file_name s line_buffer in
  PreAssemblerCopy.am_file s' = PreAssemblerCopy.am_file s
  /\ if PreAssemblerCopy.exceeds_limit line_buffer then
       PreAssemblerCopy.g_macros_list s' = PreAssemblerCopy.g_macros_list s
       /\ PreAssemblerCopy.g_in_macro_definition s' = true
       /\ PreAssemblerCopy.g_current_macro s' = Some i
       /\ PreAssemblerCopy.diag s'
          = report_error file_name (S (PreAssemblerCopy.g_current_line_number s))
              ERROR_LINE_TOO_LONG (PreAssemblerCopy.diag s)
     else if fst (PreAssemblerCopy.is_macro_definition_end
                    (PreAssemblerCopy.trimmed_copy line_buffer) s) then
       PreAssemblerCopy.g_macros_list s' = PreAssemblerCopy.g_macros_list s
       /\ PreAssemblerCopy.g_in_macro_definition s' = false
       /\ PreAssemblerCopy.g_current_macro s' = None
       /\ PreAssemblerCopy.diag s' = PreAssemblerCopy.diag s
     else
       PreAssemblerCopy.g_macros_list s'
       = PreAssemblerCopy.append_content (PreAssemblerCopy.g_macros_list s) i line_buffer
       /\ PreAssemblerCopy.g_in_macro_definition s' = true
       /\ PreAssemblerCopy.g_current_macro s' = Some i
       /\ (PreAssemblerCopy.diag s' = PreAssemblerCopy.diag s
           \/ PreAssemblerCopy.diag s'
              = report_error (PreAssemblerCopy.s_current_file_name_for_errors s)
                  (S (PreAssemblerCopy.g_current_line_number s))
                  ERROR_MACRO_DEFINITION_SYNTAX (PreAssemblerCopy.diag s)).
Proof.
  intros Hret Hdef Hcur.
  unfold PreAssemblerCopy.process_line. rewrite Hret. cbv zeta.
  destruct (PreAssemblerCopy.exceeds_limit line_buffer); [simpl; auto 10|].
  set (s0 := PreAssemblerCopy.set_line_number
               (S (PreAssemblerCopy.g_current_line_number s)) s).
  rewrite (PreAssemblerCopyFacts.end_any_state _ s s0).
  assert (Hdef0 : PreAssemblerCopy.g_in_macro_definition s0 = true) by exact Hdef.
  assert (Hcur0 : PreAssemblerCopy.g_current_macro s0 = Some i) by exact Hcur.
  change (PreAssemblerCopy.g_macros_list s) with (PreAssemblerCopy.g_macros_list s0).
  change (PreAssemblerCopy.am_file s) with (PreAssemblerCopy.am_file s0).
  change (PreAssemblerCopy.diag s) with (PreAssemblerCopy.diag s0).
  change (PreAssemblerCopy.s_current_file_name_for_errors s)
    with (PreAssemblerCopy.s_current_file_name_for_errors s0).
  change (S (PreAssemblerCopy.g_current_line_number s))
    with (PreAssemblerCopy.g_current_line_number s0).
  clearbody s0.
  unfold PreAssemblerCopy.check_unexpected_end, PreAssemblerCopy.copy_or_dispatch.
  rewrite Hdef0. cbn [negb andb]. cbv zeta. rewrite Hdef0. cbn [negb].
  unfold PreAssemblerCopy.define_or_expand. rewrite Hdef0.
  destruct (PreAssemblerCopy.is_macro_definition_end
              (PreAssemblerCopy.trimmed_copy line_buffer) s0) as [ended s1] eqn:E.
  cbn [fst].
  apply PreAssemblerCopyFacts.end_cases in E as [-> | [-> ->]].
  - destruct ended; [simpl; auto 10|].
    unfold PreAssemblerCopy.add_line_to_current_macro_content.
    rewrite Hcur0. simpl. auto 10.
  - unfold PreAssemblerCopy.add_line_to_current_macro_content.
    cbn [PreAssemblerCopy.g_current_macro PreAssemblerCopy.report_here
         PreAssemblerCopy.report PreAssemblerCopy.with_diag].
    rewrite Hcur0. simpl. auto 10.
Qed.

(** After [mcro FOO]: the indented line [add r1,r2] is appended, and a
    buffer of 81 letters is reported and dropped. *)
Lemma body_line_captured_witness :
  PreAssemblerCopy.g_macros_list
    (PreAssemblerCopy.process_line true "prog" MoreSamples.foo_open
       MoreSamples.body_line)
  = [ {| PreAssemblerCopy.name := "FOO";
         PreAssemblerCopy.content := [MoreSamples.body_line] |} ]
  /\ PreAssemblerCopy.g_macros_list
       (PreAssemblerCopy.process_line true "prog" MoreSamples.foo_open
          MoreSamples.long_buffer)
     = [ {| PreAssemblerCopy.name := "FOO"; PreAssemblerCopy.content := [] |} ].
Proof.
  split.
  - exact (proj1 (proj2 (body_line_captured true "prog" MoreSamples.foo_open
                           MoreSamples.body_line 0 eq_refl eq_refl eq_refl))).
  - exact (proj1 (proj2 (body_line_captured true "prog" MoreSamples.foo_open
                           MoreSamples.long_buffer 0 eq_refl eq_refl eq_refl))).
Defined.

(** X17. In the first loop of [src/pre_assembler.c] a line whose text is
    [mcroend] never closes a definition: [is_macro_definition_start] takes
    it for the start of a macro named [end], so the table stays as it was,
    and unless [end] is recorded already nothing is reported, the body
    collected so far is dropped and a definition is open afterwards. *)
Theorem mcroend_taken_for_start (file_name : string) (l : PreAssembler.locals)
    (line : string) :
  trim_whitespace (strncpy line MAX_LINE_LENGTH) = "mcroend" ->
  strlen line <= MAX_LINE_LENGTH + 1 ->
  let l' := PreAssembler.first_pass_line file_name l line in
  PreAssembler.g_macros l' = PreAssembler.g_macros l
  /\ PreAssembler.current_macro_name l' = "end"
  /\ (PreAssembler.find_macro (PreAssembler.g_macros l) "end" = None ->
      PreAssembler.in_macro_definition l' = true
      /\ PreAssembler.macro_body l' = EmptyString
      /\ PreAssembler.diag l' = PreAssembler.diag l).
Proof.
  intros Htrim Hlen. unfold PreAssembler.first_pass_line; cbv zeta.
  apply Nat.leb_le in Hlen. rewrite Nat.leb_antisym in Hlen.
  apply negb_true_iff in Hlen. rewrite Hlen.
  assert (Hstart : PreAssembler.extract_macro_name line
                     PreAssembler.sizeof_current_macro_name = Some "end")
    by (unfold PreAssembler.extract_macro_name; rewrite Htrim; reflexivity).
  unfold PreAssembler.is_macro_definition_start. rewrite Hstart.
  simpl PreAssembler.name_after.
  change (PreAssembler.is_valid_macro_name "end") with true. simpl negb. cbv iota.
  destruct (PreAssembler.find_macro (PreAssembler.g_macros l) "end"); simpl.
  - split; [reflexivity | split; [reflexivity | discriminate]].
  - split; [reflexivity | split; [reflexivity | intros _; repeat split]].
Qed.

(** The line [mcroend] with FOO recorded and no definition open. *)
Lemma mcroend_taken_for_start_witness :
  PreAssembler.in_macro_definition
    (PreAssembler.first_pass_line "prog" MoreSamples.foo_recorded
       MoreSamples.mcroend_line) = true
  /\ PreAssembler.current_macro_name
       (PreAssembler.first_pass_line "prog" MoreSamples.foo_recorded
          MoreSamples.mcroend_line) = "end".
Proof.
  destruct (mcroend_taken_for_start "prog" MoreSamples.foo_recorded
              MoreSamples.mcroend_line eq_refl) as (_ & Hname & Hopen);
    [vm_compute; lia|].
  destruct (Hopen eq_refl) as (Hdef & _). split; [exact Hdef | exact Hname].
Defined.
